(** * Water-polo rankings API: the response cache and the query handlers

    A shallow embedding of [api/index.py]: the process-wide response cache
    ([CACHE], [get_from_cache], [set_cache]), the cache key derivation
    ([cache_key_generator]), the matches lookup ([get_matches]) and the
    ranking-history query ([get_team_ranking_history]), followed by the
    properties of the specification that concern them.

    Modelling conventions.
    - A Python [str] is a [string]; every character stands for the code point
      of the same number (0..255).  On these code points [\d] is [0-9] and
      the white space of [str.strip] and [int] is the set [isspace] below.
    - A Python [dict] is an association list in insertion order without
      repeated keys ([dict_wf]); [min] over its keys and [for ... in
      d.items()] follow that order.
    - [time.time()] is an explicit argument of the operation that reads the
      clock, an integer number of seconds.
    - An exception is a value of type [exn]; a handler's [try/except] turns
      it into the 500 response. *)

From Stdlib Require Import ZArith List String Ascii Bool Lia.
From Stdlib Require Import Permutation Sorted DecimalString DecimalPos.
Import ListNotations.
Local Open Scope string_scope.
Local Open Scope list_scope.
Local Open Scope Z_scope.

(** ** Python built-ins on strings *)

Module Py.

Definition ord (c : ascii) : Z := Z.of_N (N_of_ascii c).

(** [str.isspace] on one character, for the code points below 256. *)
Definition isspace (c : ascii) : bool :=
  let n := ord c in
  ((9 <=? n) && (n <=? 13)) || ((28 <=? n) && (n <=? 32))
  || (n =? 133) || (n =? 160).

Definition isdigit (c : ascii) : bool :=
  let n := ord c in (48 <=? n) && (n <=? 57).

Definition digit_value (c : ascii) : Z := ord c - 48.

Fixpoint lstrip (s : string) : string :=
  match s with
  | String c s' => if isspace c then lstrip s' else s
  | EmptyString => EmptyString
  end.

Fixpoint rstrip (s : string) : string :=
  match s with
  | String c s' =>
      match rstrip s' with
      | EmptyString => if isspace c then EmptyString else String c EmptyString
      | r => String c r
      end
  | EmptyString => EmptyString
  end.

(** [s.strip()] *)
Definition strip (s : string) : string := rstrip (lstrip s).

(** [s.split(sep)] for a one-character separator: never an empty list. *)
Fixpoint split (sep : ascii) (s : string) : list string :=
  match s with
  | EmptyString => [EmptyString]
  | String c s' =>
      if Ascii.eqb c sep then EmptyString :: split sep s'
      else match split sep s' with
           | h :: t => String c h :: t
           | [] => [String c EmptyString]
           end
  end.

(** [sep.join(parts)] *)
Definition join (sep : string) (parts : list string) : string :=
  String.concat sep parts.

(** [a < b] on strings: lexicographic on code points. *)
Definition str_lt (a b : string) : bool := String.ltb a b.

(** The digits of [int(s)] after the sign: decimal digits, single
    underscores allowed between two digits. *)
Fixpoint int_digits (after_digit : bool) (acc : Z) (s : string) : option Z :=
  match s with
  | EmptyString => if after_digit then Some acc else None
  | String c s' =>
      if isdigit c then int_digits true (10 * acc + digit_value c) s'
      else if Ascii.eqb c "_"%char
           then (if after_digit then int_digits false acc s' else None)
           else None
  end.

(** [int(s)]; [None] stands for [ValueError].  The interpreter's
    configurable limit on the number of digits is not modelled. *)
Definition int (s : string) : option Z :=
  match strip s with
  | String "-" d => option_map Z.opp (int_digits false 0 d)
  | String "+" d => int_digits false 0 d
  | d => int_digits false 0 d
  end.

(** [str(n)] for an integer. *)
Definition str_of_int (n : Z) : string :=
  NilZero.string_of_int (Z.to_int n).

(** [s.encode()]: UTF-8 of code points below 256, as bytes in 0..255. *)
Fixpoint encode (s : string) : list Z :=
  match s with
  | EmptyString => []
  | String c s' =>
      let n := ord c in
      if n <? 128 then n :: encode s'
      else Z.lor 192 (Z.shiftr n 6) :: Z.lor 128 (Z.land n 63) :: encode s'
  end.

End Py.

(** ** hashlib.md5 (RFC 1321) on 32-bit words *)

Module MD5.

Definition mask32 : Z := 0xFFFFFFFF.
Definition add32 (a b : Z) : Z := Z.land (a + b) mask32.
Definition not32 (a : Z) : Z := Z.lxor a mask32.
Definition rotl32 (x n : Z) : Z :=
  Z.land (Z.lor (Z.shiftl x n) (Z.shiftr x (32 - n))) mask32.

Definition shifts : list Z :=
  [7; 12; 17; 22; 7; 12; 17; 22; 7; 12; 17; 22; 7; 12; 17; 22;
   5; 9; 14; 20; 5; 9; 14; 20; 5; 9; 14; 20; 5; 9; 14; 20;
   4; 11; 16; 23; 4; 11; 16; 23; 4; 11; 16; 23; 4; 11; 16; 23;
   6; 10; 15; 21; 6; 10; 15; 21; 6; 10; 15; 21; 6; 10; 15; 21].

Definition sines : list Z :=
  [0xd76aa478; 0xe8c7b756; 0x242070db; 0xc1bdceee;
   0xf57c0faf; 0x4787c62a; 0xa8304613; 0xfd469501;
   0x698098d8; 0x8b44f7af; 0xffff5bb1; 0x895cd7be;
   0x6b901122; 0xfd987193; 0xa679438e; 0x49b40821;
   0xf61e2562; 0xc040b340; 0x265e5a51; 0xe9b6c7aa;
   0xd62f105d; 0x02441453; 0xd8a1e681; 0xe7d3fbc8;
   0x21e1cde6; 0xc33707d6; 0xf4d50d87; 0x455a14ed;
   0xa9e3e905; 0xfcefa3f8; 0x676f02d9; 0x8d2a4c8a;
   0xfffa3942; 0x8771f681; 0x6d9d6122; 0xfde5380c;
   0xa4beea44; 0x4bdecfa9; 0xf6bb4b60; 0xbebfbc70;
   0x289b7ec6; 0xeaa127fa; 0xd4ef3085; 0x04881d05;
   0xd9d4d039; 0xe6db99e5; 0x1fa27cf8; 0xc4ac5665;
   0xf4292244; 0x432aff97; 0xab9423a7; 0xfc93a039;
   0x655b59c3; 0x8f0ccc92; 0xffeff47d; 0x85845dd1;
   0x6fa87e4f; 0xfe2ce6e0; 0xa3014314; 0x4e0811a1;
   0xf7537e82; 0xbd3af235; 0x2ad7d2bb; 0xeb86d391].

(** The message followed by the bit 1, zeros up to 56 modulo 64 bytes, and
    the length in bits as 8 little-endian bytes. *)
Definition le_bytes (width : nat) (x : Z) : list Z :=
  map (fun i => Z.land (Z.shiftr x (8 * Z.of_nat i)) 255) (seq 0 width).

Definition pad (msg : list Z) : list Z :=
  let len := Z.of_nat (List.length msg) in
  msg ++ [128] ++ repeat 0 (Z.to_nat ((55 - len) mod 64))
      ++ le_bytes 8 (Z.land (8 * len) 0xFFFFFFFFFFFFFFFF).

Definition le_word (bs : list Z) : Z :=
  fold_right (fun b acc => Z.lor b (Z.shiftl acc 8)) 0 bs.

(** [n] little-endian words of 4 bytes each. *)
Fixpoint words (n : nat) (bs : list Z) : list Z :=
  match n with
  | O => []
  | S n' => le_word (firstn 4 bs) :: words n' (skipn 4 bs)
  end.

Record state := St { sa : Z; sb : Z; sc : Z; sd : Z }.

Definition init : state :=
  St 0x67452301 0xefcdab89 0x98badcfe 0x10325476.

Definition step (m : list Z) (s : state) (i : nat) : state :=
  let '(St a b c d) := s in
  let iz := Z.of_nat i in
  let '(f, g) :=
    if iz <? 16 then (Z.lor (Z.land b c) (Z.land (not32 b) d), iz)
    else if iz <? 32
         then (Z.lor (Z.land d b) (Z.land (not32 d) c), (5 * iz + 1) mod 16)
    else if iz <? 48 then (Z.lxor (Z.lxor b c) d, (3 * iz + 5) mod 16)
    else (Z.lxor c (Z.lor b (not32 d)), (7 * iz) mod 16) in
  let f' := add32 (add32 (add32 f a) (nth i sines 0)) (nth (Z.to_nat g) m 0) in
  St d (add32 b (rotl32 f' (nth i shifts 0))) b c.

Definition block (s : state) (m : list Z) : state :=
  let '(St a b c d) := fold_left (step m) (seq 0 64) s in
  St (add32 (sa s) a) (add32 (sb s) b) (add32 (sc s) c) (add32 (sd s) d).

(** The padded message, 64 bytes at a time. *)
Fixpoint blocks (n : nat) (bs : list Z) (s : state) : state :=
  match n with
  | O => s
  | S n' => blocks n' (skipn 64 bs) (block s (words 16 (firstn 64 bs)))
  end.

Definition digest (msg : list Z) : list Z :=
  let p := pad msg in
  let '(St a b c d) := blocks (List.length p / 64) p init in
  le_bytes 4 a ++ le_bytes 4 b ++ le_bytes 4 c ++ le_bytes 4 d.

Definition hex_digit (n : Z) : ascii :=
  ascii_of_N (Z.to_N (if n <? 10 then 48 + n else 87 + n)).

Definition hex (bs : list Z) : string :=
  fold_right (fun b acc =>
                String (hex_digit (Z.shiftr b 4))
                       (String (hex_digit (Z.land b 15)) acc))
             EmptyString bs.

(** [hashlib.md5(data).hexdigest()] *)
Definition hexdigest (data : list Z) : string := hex (digest data).

End MD5.

(** ** Cache key derivation *)

(** [cache_key_generator] on its argument list; every caller passes
    strings, on which [str(arg)] is the identity. *)
Definition key_string (args : list string) : string := Py.join "_" args.

Definition cache_key_generator (args : list string) : string :=
  MD5.hexdigest (Py.encode (key_string args)).

(** ** Python dicts, in insertion order *)

Module Dict.
Section Dict.
Context {V : Type}.

Definition t : Type := list (string * V).

(** [d[k]] and [k in d]: [None] when the key is absent. *)
Fixpoint get (k : string) (d : t) : option V :=
  match d with
  | [] => None
  | (k', v) :: d' => if String.eqb k k' then Some v else get k d'
  end.

Definition mem (k : string) (d : t) : bool :=
  match get k d with Some _ => true | None => false end.

(** [d[k] = v]: a present key keeps its place, a new key goes last. *)
Fixpoint set (k : string) (v : V) (d : t) : t :=
  match d with
  | [] => [(k, v)]
  | (k', v') :: d' =>
      if String.eqb k k' then (k, v) :: d' else (k', v') :: set k v d'
  end.

(** [del d[k]], only ever applied to a present key. *)
Fixpoint del (k : string) (d : t) : t :=
  match d with
  | [] => []
  | (k', v') :: d' => if String.eqb k k' then d' else (k', v') :: del k d'
  end.

Definition keys (d : t) : list string := map fst d.
Definition len (d : t) : Z := Z.of_nat (List.length d).

(** A dict holds a key once. *)
Definition wf (d : t) : Prop := NoDup (keys d).

End Dict.
Arguments t : clear implicits.
End Dict.

(** [min(xs, key=f)]: the first element whose key no later one undercuts;
    [None] on an empty sequence, where Python raises. *)
Fixpoint min_from {A : Type} (f : A -> Z) (best : A) (xs : list A) : A :=
  match xs with
  | [] => best
  | x :: xs' => if f x <? f best then min_from f x xs' else min_from f best xs'
  end.

Definition py_min {A : Type} (f : A -> Z) (xs : list A) : option A :=
  match xs with
  | [] => None
  | x :: xs' => Some (min_from f x xs')
  end.

(** A check of [Dict.wf] that computes. *)
Fixpoint distinct (ks : list string) : bool :=
  match ks with
  | [] => true
  | k :: ks' => negb (existsb (String.eqb k) ks') && distinct ks'
  end.

(** ** The response cache *)

Definition CACHE_TTL : Z := 3600.
Definition CACHE_MAX_SIZE : Z := 100.

Section Cache.
Variable Data : Type.

(** [CACHE]: key -> (data, timestamp). *)
Definition cache : Type := Dict.t (Data * Z).

(** [CACHE[k][1]] *)
Definition stored_at (c : cache) (k : string) : Z :=
  match Dict.get k c with
  | Some (_, timestamp) => timestamp
  | None => 0
  end.

(** [get_from_cache(key)] when [time.time()] reads [now]: the returned data
    ([None] for Python's [None]) and the cache afterwards. *)
Definition get_from_cache (now : Z) (key : string) (c : cache)
  : option Data * cache :=
  match Dict.get key c with
  | Some (data, timestamp) =>
      if now - timestamp <? CACHE_TTL then (Some data, c)
      else (None, Dict.del key c)
  | None => (None, c)
  end.

(** [set_cache(key, data)] when [time.time()] reads [now]. *)
Definition set_cache (now : Z) (key : string) (data : Data) (c : cache)
  : cache :=
  let c' :=
    if CACHE_MAX_SIZE <=? Dict.len c then
      match py_min (stored_at c) (Dict.keys c) with
      | Some oldest_key => Dict.del oldest_key c
      | None => c   (* not reached: the dict holds CACHE_MAX_SIZE > 0 keys *)
      end
    else c in
  Dict.set key (data, now) c'.

(** [CACHE.clear()] *)
Definition clear_cache (c : cache) : cache := [].

(** The operations that touch [CACHE], and a run of them. *)
Inductive cache_op : Type :=
| OpGet (now : Z) (key : string)
| OpSet (now : Z) (key : string) (data : Data)
| OpClear.

Definition apply_op (c : cache) (op : cache_op) : cache :=
  match op with
  | OpGet now key => snd (get_from_cache now key c)
  | OpSet now key data => set_cache now key data c
  | OpClear => clear_cache c
  end.

Definition run (ops : list cache_op) (c : cache) : cache :=
  fold_left apply_op ops c.

(** The entry that [set_cache] evicts from a full cache holds a smallest
    timestamp. *)
Definition oldest (c : cache) (k : string) : Prop :=
  exists data timestamp,
    Dict.get k c = Some (data, timestamp) /\
    forall k' data' timestamp',
      Dict.get k' c = Some (data', timestamp') -> timestamp <= timestamp'.

(** What every run of the operations keeps. *)
Definition cache_inv (c : cache) : Prop :=
  Dict.wf c /\ Dict.len c <= CACHE_MAX_SIZE.

(** An insert as data: key, data and the time [set_cache] reads; the entry
    it writes and the operation it is. *)
Definition entry_of (ins : string * Data * Z) : string * (Data * Z) :=
  let '(key, data, now) := ins in (key, (data, now)).

Definition op_of (ins : string * Data * Z) : cache_op :=
  let '(key, data, now) := ins in OpSet now key data.

Definition ins_key (ins : string * Data * Z) : string := fst (fst ins).
Definition ins_time (ins : string * Data * Z) : Z := snd ins.

End Cache.

Arguments get_from_cache {Data}.
Arguments set_cache {Data}.
Arguments clear_cache {Data}.
Arguments stored_at {Data}.
Arguments OpGet {Data}.
Arguments OpSet {Data}.
Arguments OpClear {Data}.
Arguments apply_op {Data}.
Arguments run {Data}.
Arguments oldest {Data}.
Arguments cache_inv {Data}.
Arguments entry_of {Data}.
Arguments op_of {Data}.
Arguments ins_key {Data}.
Arguments ins_time {Data}.

(** ** Values, exceptions and responses *)

#[local] Set Warnings "-register-all".

(** JSON values: what the database and the ranking files hold and what
    [jsonify] sends. *)
Inductive json : Type :=
| JNull
| JBool (b : bool)
| JInt (n : Z)
| JStr (s : string)
| JList (items : list json)
| JDict (fields : list (string * json)).

(** [if x:] *)
Definition truthy (x : json) : bool :=
  match x with
  | JNull => false
  | JBool b => b
  | JInt n => negb (n =? 0)
  | JStr s => negb (String.eqb s "")
  | JList items => match items with [] => false | _ => true end
  | JDict fields => match fields with [] => false | _ => true end
  end.

Inductive exn : Type :=
| ValueError (data : string)
| KeyError (key : string)
| IndexError
| TypeError.

Inductive result (A : Type) : Type :=
| Ok (a : A)
| Raise (e : exn).
Arguments Ok {A}.
Arguments Raise {A}.

Definition bind {A B : Type} (r : result A) (k : A -> result B) : result B :=
  match r with
  | Ok a => k a
  | Raise e => Raise e
  end.

Notation "x <- r ;; k" := (bind r (fun x => k))
  (at level 61, r at next level, right associativity).

Definition or_raise {A : Type} (o : option A) (e : exn) : result A :=
  match o with
  | Some a => Ok a
  | None => Raise e
  end.

(** [len(x)]; numbers, booleans and [None] have no length. *)
Definition py_len (x : json) : result Z :=
  match x with
  | JStr s => Ok (Z.of_nat (String.length s))
  | JList items => Ok (Z.of_nat (List.length items))
  | JDict fields => Ok (Z.of_nat (List.length fields))
  | _ => Raise TypeError
  end.

(** What a handler returns: [jsonify(data), 200] or, from its [except]
    clause, [jsonify({error: str(e)}), 500].  The headers that
    [add_cache_headers] adds to a 200 response are left out. *)
Inductive response : Type :=
| Ok200 (body : json)
| Err500 (e : exn).

(** [if cached_data:] on what [get_from_cache] returned. *)
Definition if_truthy (x : option json) : option json :=
  match x with
  | Some data => if truthy data then Some data else None
  | None => None
  end.

(** The frame every handler has around its computation: look the key up and
    serve a truthy hit; otherwise compute, and store the result unless the
    computation raised.  [now_get] and [now_set] are the two readings of the
    clock, in [get_from_cache] and in [set_cache]. *)
Definition cached (now_get now_set : Z) (cache_key : string)
    (compute : result json) (c : cache json) : response * cache json :=
  let '(cached_data, c1) := get_from_cache now_get cache_key c in
  match if_truthy cached_data with
  | Some data => (Ok200 data, c1)
  | None =>
      match compute with
      | Ok result_data =>
          (Ok200 result_data, set_cache now_set cache_key result_data c1)
      | Raise e => (Err500 e, c1)
      end
  end.

(** The lookup of [cache_key] serves nothing: absent, expired or falsy. *)
Definition cache_miss (now : Z) (cache_key : string) (c : cache json) : Prop :=
  if_truthy (fst (get_from_cache now cache_key c)) = None.

(** ** Matches between two ranks *)

(** The body of [get_matches] after the cache lookup.  [matches_col] is what
    [find] yields: the documents of the collection, without their [_id]. *)
Definition matches_key (row col : Z) : string :=
  (Py.str_of_int (row - 1) ++ "_" ++ Py.str_of_int (col - 1))%string.

Definition matches_lookup (matches_col : list (Dict.t json))
    (row_rank col_rank : string) : result json :=
  row <- or_raise (Py.int row_rank) (ValueError row_rank) ;;
  col <- or_raise (Py.int col_rank) (ValueError col_rank) ;;
  let key1 := matches_key row col in
  doc <- or_raise (nth_error matches_col 0) IndexError ;;
  games <- or_raise (Dict.get key1 doc) (KeyError key1) ;;
  count <- py_len games ;;
  Ok (JDict [("matches", games); ("count", JInt count);
             ("row_rank", JStr row_rank); ("col_rank", JStr col_rank)]).

Definition matches_handler (namespace : string)
    (matches_col : list (Dict.t json)) (now_get now_set : Z)
    (row_rank col_rank : string) (c : cache json) : response * cache json :=
  cached now_get now_set (cache_key_generator [namespace; row_rank; col_rank])
         (matches_lookup matches_col row_rank col_rank) c.

Definition get_matches := matches_handler "matches".
Definition get_WWP_matches := matches_handler "WWPmatches".

(** ** datetime *)

Module Datetime.

(** A [datetime] at midnight, as [strptime] builds it from a date. *)
Record datetime : Type := Dt { year : Z; month : Z; day : Z }.

(** The regular expression of a directive: every way it matches a prefix of
    the data, in the order the engine tries them, each with the number read
    and the rest of the data. *)
Definition matcher : Type := string -> list (Z * string).

Definition between (lo hi : Z) (c : ascii) : bool :=
  let n := Py.ord c - 48 in (lo <=? n) && (n <=? hi).

Definition is_char (x : ascii) (c : ascii) : bool := Ascii.eqb c x.

Definition numeral (c : ascii) : Z :=
  if Py.isdigit c then Py.digit_value c else 0.

Definition one (p : ascii -> bool) : matcher :=
  fun s =>
    match s with
    | String a r => if p a then [(numeral a, r)] else []
    | _ => []
    end.

Definition two (p q : ascii -> bool) : matcher :=
  fun s =>
    match s with
    | String a (String b r) =>
        if p a && q b then [(10 * numeral a + numeral b, r)] else []
    | _ => []
    end.

Definition alt (m1 m2 : matcher) : matcher := fun s => m1 s ++ m2 s.

(** [%Y]: \d\d\d\d *)
Definition re_Y : matcher :=
  fun s =>
    flat_map (fun '(hi, r) => map (fun '(lo, r') => (100 * hi + lo, r'))
                                  (two Py.isdigit Py.isdigit r))
             (two Py.isdigit Py.isdigit s).

(** [%m]: 1[0-2]|0[1-9]|[1-9] *)
Definition re_m : matcher :=
  alt (two (is_char "1") (between 0 2))
 (alt (two (is_char "0") (between 1 9))
      (one (between 1 9))).

(** [%d]: 3[0-1]|[1-2]\d|0[1-9]|[1-9]| [1-9] *)
Definition re_d : matcher :=
  alt (two (is_char "3") (between 0 1))
 (alt (two (between 1 2) Py.isdigit)
 (alt (two (is_char "0") (between 1 9))
 (alt (one (between 1 9))
      (two (is_char " ") (between 1 9))))).

Definition lit (x : ascii) (s : string) : list string :=
  match s with
  | String a r => if Ascii.eqb a x then [r] else []
  | _ => []
  end.

Definition is_leap (y : Z) : bool :=
  (y mod 4 =? 0) && (negb (y mod 100 =? 0) || (y mod 400 =? 0)).

Definition days_in_month (y m : Z) : Z :=
  if m =? 2 then (if is_leap y then 29 else 28)
  else if (m =? 4) || (m =? 6) || (m =? 9) || (m =? 11) then 30
  else 31.

(** [datetime(y, m, d)]: [None] where the constructor raises [ValueError]. *)
Definition make (y m d : Z) : option datetime :=
  if (1 <=? y) && (y <=? 9999) && (1 <=? m) && (m <=? 12)
     && (1 <=? d) && (d <=? days_in_month y m)
  then Some (Dt y m d) else None.

(** The end of [strptime]: the first match of the whole pattern must use up
    the data, and its numbers must make a date. *)
Definition finish (data : string)
    (found : list (Z * Z * Z * string)) : result datetime :=
  match found with
  | (y, m, d, EmptyString) :: _ => or_raise (make y m d) (ValueError data)
  | _ => Raise (ValueError data)
  end.

(** [datetime.strptime(data, "%Y-%m-%d")] *)
Definition strptime_Ymd (data : string) : result datetime :=
  finish data
    (flat_map (fun '(y, r1) =>
     flat_map (fun r2 =>
     flat_map (fun '(m, r3) =>
     flat_map (fun r4 =>
     map (fun '(d, r5) => (y, m, d, r5)) (re_d r4))
       (lit "-" r3)) (re_m r2)) (lit "-" r1)) (re_Y data)).

(** [datetime.strptime(data, "%m/%d/%Y")] *)
Definition strptime_mdY (data : string) : result datetime :=
  finish data
    (flat_map (fun '(m, r1) =>
     flat_map (fun r2 =>
     flat_map (fun '(d, r3) =>
     flat_map (fun r4 =>
     map (fun '(y, r5) => (y, m, d, r5)) (re_Y r4))
       (lit "/" r3)) (re_d r2)) (lit "/" r1)) (re_m data)).

(** [a <= b] *)
Definition leb (a b : datetime) : bool :=
  if year a =? year b then
    if month a =? month b then day a <=? day b else month a <? month b
  else year a <? year b.

Definition digit_char (n : Z) : ascii := ascii_of_N (Z.to_N (48 + n mod 10)).

Definition pad2 (n : Z) : string :=
  String (digit_char (n / 10)) (String (digit_char n) EmptyString).

Definition pad4 (n : Z) : string :=
  String (digit_char (n / 1000)) (String (digit_char (n / 100))
    (String (digit_char (n / 10)) (String (digit_char n) EmptyString))).

(** [dt.strftime("%Y-%m-%d")], the year on four digits.  (Below the year
    1000 some C libraries leave the leading zeros out; from 1000 on every
    platform prints this string.) *)
Definition strftime_Ymd (dt : datetime) : string :=
  (pad4 (year dt) ++ "-" ++ pad2 (month dt) ++ "-" ++ pad2 (day dt))%string.

End Datetime.

(** ** Ranking history *)

(** One entry of a date group of the ranking files:
    [{team_name: ..., ranking: ...}], the name a string, the ranking an
    integer or a label.  An entry that lacks one of the two fields, on which
    the handler would raise [KeyError], is outside this type. *)
Record team_entry : Type := Team { team_name : string; ranking : json }.

(** The ranking file after [json.load]: date-group label -> entries, in the
    order of the file. *)
Definition dataset : Type := Dict.t (list team_entry).

(** A row of [history]: [{team_name, date, rank}]. *)
Record history_row : Type :=
  Row { row_team : string; row_date : string; row_rank : json }.

Definition json_of_row (x : history_row) : json :=
  JDict [("team_name", JStr (row_team x)); ("date", JStr (row_date x));
         ("rank", row_rank x)].

(** [x in xs] on strings. *)
Definition str_in (x : string) (xs : list string) : bool :=
  existsb (String.eqb x) xs.

(** [[name.strip() for name in team_names.split(',')]] *)
Definition parse_team_list (team_names : string) : list string :=
  map Py.strip (Py.split "," team_names).

(** [date_str.split('-')[0]] *)
Definition label_date (date_str : string) : string :=
  hd EmptyString (Py.split "-" date_str).

(** The inner loop: the rows one date group appends to [history]. *)
Definition group_rows (team_list : list string)
    (current_date : Datetime.datetime) (ranking_list : list team_entry)
  : list history_row :=
  map (fun team => Row (team_name team)
                       (Datetime.strftime_Ymd current_date) (ranking team))
      (filter (fun team => str_in (team_name team) team_list) ranking_list).

(** The outer loop over [rankings.items()], [history] being what has been
    appended so far. *)
Fixpoint scan_groups (start_dt end_dt : Datetime.datetime)
    (team_list : list string) (groups : dataset) (history : list history_row)
  : result (list history_row) :=
  match groups with
  | [] => Ok history
  | (date_str, ranking_list) :: rest =>
      current_date <- Datetime.strptime_mdY (label_date date_str) ;;
      scan_groups start_dt end_dt team_list rest
        (if Datetime.leb start_dt current_date
            && Datetime.leb current_date end_dt
         then history ++ group_rows team_list current_date ranking_list
         else history)
  end.

(** [xs.sort(key=key)]: stable, comparing keys with [<] only.  Any stable
    sort gives the same list; this one inserts from the right. *)
Section Sort.
Context {A K : Type}.
Variable lt : K -> K -> bool.
Variable key : A -> K.

Fixpoint insert (x : A) (xs : list A) : list A :=
  match xs with
  | [] => [x]
  | y :: ys => if lt (key y) (key x) then y :: insert x ys else x :: y :: ys
  end.

Definition sort (xs : list A) : list A := fold_right insert [] xs.

(** [x] may stand before [y]: the key of [y] is not below the key of [x]. *)
Definition key_le (x y : A) : Prop := lt (key y) (key x) = false.

(** Neither key is below the other. *)
Definition tie (x y : A) : bool :=
  negb (lt (key x) (key y)) && negb (lt (key y) (key x)).

End Sort.

(** [(a1, b1) < (a2, b2)] on pairs of strings. *)
Definition pair_lt (p q : string * string) : bool :=
  if String.eqb (fst p) (fst q) then Py.str_lt (snd p) (snd q)
  else Py.str_lt (fst p) (fst q).

(** [lambda x: (x['date'], x['team_name'])] *)
Definition sort_key (x : history_row) : string * string :=
  (row_date x, row_team x).

(** The rows of the answer: parse the bounds, scan the groups, sort. *)
Definition history_rows (rankings : dataset)
    (team_names start_date end_date : string) : result (list history_row) :=
  start_dt <- Datetime.strptime_Ymd start_date ;;
  end_dt <- Datetime.strptime_Ymd end_date ;;
  history <- scan_groups start_dt end_dt (parse_team_list team_names)
                         rankings [] ;;
  Ok (sort pair_lt sort_key history).

(** [result_data] of a ranking-history request, from its rows. *)
Definition history_json (rows : list history_row)
    (team_names start_date end_date : string) : json :=
  JDict [("data", JList (map json_of_row rows));
         ("count", JInt (Z.of_nat (List.length rows)));
         ("teams", JList (map JStr (parse_team_list team_names)));
         ("date_range", JDict [("start", JStr start_date);
                               ("end", JStr end_date)])].

(** The body of [get_team_ranking_history] after the cache lookup. *)
Definition ranking_history (rankings : dataset)
    (team_names start_date end_date : string) : result json :=
  history <- history_rows rankings team_names start_date end_date ;;
  Ok (history_json history team_names start_date end_date).

Definition ranking_history_handler (namespace : string) (rankings : dataset)
    (now_get now_set : Z) (team_names start_date end_date : string)
    (c : cache json) : response * cache json :=
  cached now_get now_set
         (cache_key_generator [namespace; team_names; start_date; end_date])
         (ranking_history rankings team_names start_date end_date) c.

(** [rankings] and [wwp_rankings] are the two files loaded at start-up. *)
Definition get_team_ranking_history := ranking_history_handler "rankings".
Definition get_WWP_team_ranking_history := ranking_history_handler "WWPankings".

(** *** The rows as the specification words them *)

(** The entries of the groups whose date lies within the bounds and whose
    team is requested, each as (team, ISO date, ranking). *)
Definition in_range (start_dt end_dt d : Datetime.datetime) : bool :=
  Datetime.leb start_dt d && Datetime.leb d end_dt.

Definition spec_rows (start_dt end_dt : Datetime.datetime)
    (teams : list string) (groups : dataset) : list history_row :=
  flat_map
    (fun '(label, entries) =>
       match Datetime.strptime_mdY (label_date label) with
       | Ok d =>
           if in_range start_dt end_dt d
           then map (fun e => Row (team_name e) (Datetime.strftime_Ymd d)
                                  (ranking e))
                    (filter (fun e => str_in (team_name e) teams) entries)
           else []
       | Raise _ => []
       end)
    groups.

(** ** Sample data *)

(** A hundred inserts, one a second, each under the decimal of its second. *)
Definition hundred_inserts : list (string * json * Z) :=
  map (fun i => let n := Z.of_nat i in (Py.str_of_int n, JInt n, n))
      (seq 0 100).

(** The cache they fill, from empty. *)
Definition full_cache : cache json := run (map op_of hundred_inserts) [].

(** ** Separator-free strings and reading UTF-8 back *)

Fixpoint has_char (x : ascii) (s : string) : bool :=
  match s with
  | EmptyString => false
  | String c s' => Ascii.eqb c x || has_char x s'
  end.

(** The string does not contain the separator of [cache_key_generator]. *)
Definition no_sep (s : string) : Prop := has_char "_" s = false.

Definition chr (n : Z) : ascii := ascii_of_N (Z.to_N n).

(** The inverse of [Py.encode] on what it produces. *)
Fixpoint decode (bs : list Z) : string :=
  match bs with
  | [] => EmptyString
  | n :: r =>
      if n <? 128 then String (chr n) (decode r)
      else match r with
           | m :: r' => String (chr ((n - 192) * 64 + (m - 128))) (decode r')
           | [] => EmptyString
           end
  end.

(** ** Orders on rows and dates *)

(** [x] comes no later than [y] by (date, team name). *)
Definition row_le (x y : history_row) : Prop :=
  String.ltb (row_date x) (row_date y) = true \/
  (row_date x = row_date y /\ String.leb (row_team x) (row_team y) = true).

(** The row has the sort key [k]. *)
Definition has_key (k : string * string) (x : history_row) : bool :=
  String.eqb (row_date x) (fst k) && String.eqb (row_team x) (snd k).

(** What [datetime(...)] accepts. *)
Definition valid_date (d : Datetime.datetime) : Prop :=
  Datetime.make (Datetime.year d) (Datetime.month d) (Datetime.day d) = Some d.

(** Two date groups, as in the specification's example, and the same with a
    label that is no date in front. *)
Definition two_groups : dataset :=
  [("01/05/2023", [Team "A" (JInt 1)]); ("01/10/2023", [Team "B" (JInt 2)])].

Definition bad_label_groups : dataset := ("oops", []) :: two_groups.

(** ** The matrices, the cache endpoints and the application *)

(** [[str(i) for i in range(1, n + 1)] + ["unranked"]] *)
Definition rank_order (n : nat) : list string :=
  map (fun i => Py.str_of_int (Z.of_nat i)) (seq 1 n) ++ ["unranked"].

Definition RANK_ORDER : list string := rank_order 20.
Definition WWP_RANK_ORDER : list string := rank_order 25.

(** [result_data] of a matrix request: the headers and every document of
    the two collections, as [find] yields them without their [_id]. *)
Definition matrix_data (headers : list string)
    (prob_data delim_data : list (Dict.t json)) : json :=
  JDict [("headers", JList (map JStr headers));
         ("probData", JList (map JDict prob_data));
         ("delimData", JList (map JDict delim_data))].

Definition matrix_handler (namespace : string) (headers : list string)
    (delim_col prob_col : list (Dict.t json)) (now_get now_set : Z)
    (c : cache json) : response * cache json :=
  cached now_get now_set (cache_key_generator [namespace; "v1"])
         (Ok (matrix_data headers prob_col delim_col)) c.

Definition get_matrix := matrix_handler "matrix" RANK_ORDER.
Definition get_WWP_matrix := matrix_handler "WWPmatrix" WWP_RANK_ORDER.

(** [health_check()] *)
Definition health_check : json :=
  JDict [("status", JStr "healthy");
         ("message", JStr "Flask server is running")].

(** [cache_info()] *)
Definition cache_info (c : cache json) : json :=
  JDict [("cache_size", JInt (Dict.len c));
         ("max_cache_size", JInt CACHE_MAX_SIZE);
         ("cache_ttl_seconds", JInt CACHE_TTL);
         ("cached_keys",
          if Dict.len c <? 20 then JList (map JStr (Dict.keys c))
          else JStr (Py.str_of_int (Dict.len c)
                     ++ " keys (too many to list)")%string)].

(** The route [/api/cache/clear]: the answer and the cache afterwards. *)
Definition clear_cache_endpoint (c : cache json) : json * cache json :=
  let old_size := Dict.len c in
  let c' := clear_cache c in
  (JDict [("message",
           JStr ("Cache cleared successfully. Removed "
                 ++ Py.str_of_int old_size ++ " entries.")%string);
          ("cache_size", JInt (Dict.len c'))],
   c').

(** What the handlers read besides the cache: the six collections as they
    are when the request arrives, and the two ranking files. *)
Record backend : Type := Backend {
  delim_col : list (Dict.t json);
  prob_col : list (Dict.t json);
  matches_col : list (Dict.t json);
  wwp_delim_col : list (Dict.t json);
  wwp_prob_col : list (Dict.t json);
  wwp_matches_col : list (Dict.t json);
  rankings : dataset;
  wwp_rankings : dataset
}.

(** The routes of the application, with the parameters of their paths. *)
Inductive request : Type :=
| MatrixReq
| MatchesReq (row_rank col_rank : string)
| RankingsReq (team_names start_date end_date : string)
| WWPMatrixReq
| WWPMatchesReq (row_rank col_rank : string)
| WWPRankingsReq (team_names start_date end_date : string)
| HealthReq
| CacheInfoReq
| CacheClearReq.

(** The handler of each route; [now_get] and [now_set] are the readings of
    the clock it makes, if it makes them. *)
Definition serve (b : backend) (now_get now_set : Z) (req : request)
    (c : cache json) : response * cache json :=
  match req with
  | MatrixReq => get_matrix (delim_col b) (prob_col b) now_get now_set c
  | MatchesReq row_rank col_rank =>
      get_matches (matches_col b) now_get now_set row_rank col_rank c
  | RankingsReq team_names start_date end_date =>
      get_team_ranking_history (rankings b) now_get now_set
                               team_names start_date end_date c
  | WWPMatrixReq =>
      get_WWP_matrix (wwp_delim_col b) (wwp_prob_col b) now_get now_set c
  | WWPMatchesReq row_rank col_rank =>
      get_WWP_matches (wwp_matches_col b) now_get now_set row_rank col_rank c
  | WWPRankingsReq team_names start_date end_date =>
      get_WWP_team_ranking_history (wwp_rankings b) now_get now_set
                                   team_names start_date end_date c
  | HealthReq => (Ok200 health_check, c)
  | CacheInfoReq => (Ok200 (cache_info c), c)
  | CacheClearReq =>
      let '(answer, c') := clear_cache_endpoint c in (Ok200 answer, c')
  end.

(** The cache key a route looks up, for the routes that use the cache. *)
Definition request_key (req : request) : option string :=
  match req with
  | MatrixReq => Some (cache_key_generator ["matrix"; "v1"])
  | MatchesReq row_rank col_rank =>
      Some (cache_key_generator ["matches"; row_rank; col_rank])
  | RankingsReq team_names start_date end_date =>
      Some (cache_key_generator
              ["rankings"; team_names; start_date; end_date])
  | WWPMatrixReq => Some (cache_key_generator ["WWPmatrix"; "v1"])
  | WWPMatchesReq row_rank col_rank =>
      Some (cache_key_generator ["WWPmatches"; row_rank; col_rank])
  | WWPRankingsReq team_names start_date end_date =>
      Some (cache_key_generator
              ["WWPankings"; team_names; start_date; end_date])
  | HealthReq | CacheInfoReq | CacheClearReq => None
  end.

(** A request as it arrives: the state of the collections and files, the
    two clock readings, the route. *)
Definition arrival : Type := backend * Z * Z * request.

(** The cache after a sequence of requests. *)
Definition serve_all (arrivals : list arrival) (c : cache json)
  : cache json :=
  fold_left (fun c '(b, now_get, now_set, req) =>
               snd (serve b now_get now_set req c))
            arrivals c.

(** What a route computes when the cache serves nothing. *)
Definition request_compute (b : backend) (req : request)
  : option (result json) :=
  match req with
  | MatrixReq => Some (Ok (matrix_data RANK_ORDER (prob_col b) (delim_col b)))
  | MatchesReq row_rank col_rank =>
      Some (matches_lookup (matches_col b) row_rank col_rank)
  | RankingsReq team_names start_date end_date =>
      Some (ranking_history (rankings b) team_names start_date end_date)
  | WWPMatrixReq =>
      Some (Ok (matrix_data WWP_RANK_ORDER (wwp_prob_col b)
                            (wwp_delim_col b)))
  | WWPMatchesReq row_rank col_rank =>
      Some (matches_lookup (wwp_matches_col b) row_rank col_rank)
  | WWPRankingsReq team_names start_date end_date =>
      Some (ranking_history (wwp_rankings b) team_names start_date end_date)
  | HealthReq | CacheInfoReq | CacheClearReq => None
  end.

(** Every value in the cache passes [if cached_data:]. *)
Definition all_truthy (c : cache json) : Prop :=
  forall k data timestamp,
    Dict.get k c = Some (data, timestamp) -> truthy data = true.

(** A small state of the collections and files: one matches document with
    the single key ["8_2"], the two date groups of the example. *)
Definition sample_backend : backend :=
  Backend [] [] [[("8_2", JList [JStr "a game"])]] [] [] []
          two_groups two_groups.



(** A label with a disambiguating suffix after a hyphen. *)
Definition with_suffix (suffix : string) (group : string * list team_entry)
  : string * list team_entry :=
  ((fst group ++ String "-" suffix)%string, snd group).

(** A date group with a padded name and a name with a comma besides a plain
    one. *)
Definition odd_names_groups : dataset :=
  [("01/05/2023", [Team " A" (JInt 1); Team "A" (JInt 2);
                   Team "A,B" (JInt 3)])].

(** The number that [int] reads off the digits of a decimal numeral, from
    the left, continuing from [acc]. *)
Fixpoint uint_acc (d : Decimal.uint) (acc : Z) : Z :=
  match d with
  | Decimal.Nil => acc
  | Decimal.D0 d' => uint_acc d' (10 * acc + 0)
  | Decimal.D1 d' => uint_acc d' (10 * acc + 1)
  | Decimal.D2 d' => uint_acc d' (10 * acc + 2)
  | Decimal.D3 d' => uint_acc d' (10 * acc + 3)
  | Decimal.D4 d' => uint_acc d' (10 * acc + 4)
  | Decimal.D5 d' => uint_acc d' (10 * acc + 5)
  | Decimal.D6 d' => uint_acc d' (10 * acc + 6)
  | Decimal.D7 d' => uint_acc d' (10 * acc + 7)
  | Decimal.D8 d' => uint_acc d' (10 * acc + 8)
  | Decimal.D9 d' => uint_acc d' (10 * acc + 9)
  end.

(** A lower-case hexadecimal digit. *)
Definition is_hex (c : ascii) : bool :=
  let n := Py.ord c in
  ((48 <=? n) && (n <=? 57)) || ((97 <=? n) && (n <=? 102)).

Fixpoint all_chars (p : ascii -> bool) (s : string) : bool :=
  match s with
  | EmptyString => true
  | String c s' => p c && all_chars p s'
  end.


(** * Properties *)

(** ** Dicts *)

Module DictFacts.
Section DictFacts.
Context {V : Type}.
Implicit Types (d : Dict.t V) (k : string) (v : V).

Lemma get_set_same k v d : Dict.get k (Dict.set k v d) = Some v.
Proof.
  induction d as [|[k' v'] d IH]; simpl.
  - now rewrite String.eqb_refl.
  - destruct (String.eqb k k') eqn:E; simpl; rewrite ?String.eqb_refl, ?E; auto.
Qed.

Lemma get_set_other k k' v d :
  k <> k' -> Dict.get k' (Dict.set k v d) = Dict.get k' d.
Proof.
  intros Hne. induction d as [|[k0 v0] d IH]; simpl.
  - destruct (String.eqb_spec k' k); congruence.
  - destruct (String.eqb_spec k k0) as [->|Hk]; simpl.
    + destruct (String.eqb_spec k' k0); congruence.
    + now rewrite IH.
Qed.

Lemma get_del_other k k' d :
  k <> k' -> Dict.get k' (Dict.del k d) = Dict.get k' d.
Proof.
  intros Hne. induction d as [|[k0 v0] d IH]; simpl; auto.
  destruct (String.eqb_spec k k0) as [->|Hk]; simpl.
  - destruct (String.eqb_spec k' k0); congruence.
  - now rewrite IH.
Qed.

Lemma get_some_in k v d : Dict.get k d = Some v -> In k (Dict.keys d).
Proof.
  induction d as [|[k0 v0] d IH]; simpl; [discriminate|].
  destruct (String.eqb_spec k k0) as [->|Hk]; auto.
Qed.

Lemma in_get_some k d : In k (Dict.keys d) -> exists v, Dict.get k d = Some v.
Proof.
  induction d as [|[k0 v0] d IH]; simpl; [tauto|].
  intros [<-|Hin].
  - rewrite String.eqb_refl. eauto.
  - destruct (String.eqb k k0); eauto.
Qed.

Lemma get_none_not_in k d : Dict.get k d = None -> ~ In k (Dict.keys d).
Proof.
  intros Hg Hin. apply in_get_some in Hin as [v Hv]. congruence.
Qed.

Lemma get_del_same k d : Dict.wf d -> Dict.get k (Dict.del k d) = None.
Proof.
  unfold Dict.wf. induction d as [|[k0 v0] d IH]; simpl; auto.
  intros Hnd. inversion Hnd as [|? ? Hnotin Hnd']; subst.
  destruct (String.eqb_spec k k0) as [->|Hk]; simpl.
  - destruct (Dict.get k0 d) eqn:E; auto.
    apply get_some_in in E. contradiction.
  - destruct (String.eqb_spec k k0); [contradiction|]. auto.
Qed.

Lemma keys_del_incl k d : incl (Dict.keys (Dict.del k d)) (Dict.keys d).
Proof.
  induction d as [|[k0 v0] d IH]; simpl; [apply incl_refl|].
  destruct (String.eqb k k0); simpl.
  - apply incl_tl, incl_refl.
  - apply incl_cons; [now left|]. now apply incl_tl.
Qed.

Lemma wf_del k d : Dict.wf d -> Dict.wf (Dict.del k d).
Proof.
  unfold Dict.wf. induction d as [|[k0 v0] d IH]; simpl; auto.
  intros Hnd. inversion Hnd as [|? ? Hnotin Hnd']; subst.
  destruct (String.eqb k k0); simpl; auto.
  constructor; auto.
  intros Hin. apply Hnotin. eapply keys_del_incl; eauto.
Qed.

Lemma keys_set_in k v d k' :
  In k' (Dict.keys (Dict.set k v d)) -> k' = k \/ In k' (Dict.keys d).
Proof.
  induction d as [|[k0 v0] d IH]; simpl.
  - intros [<-|[]]; auto.
  - destruct (String.eqb_spec k k0) as [->|Hk]; simpl.
    + intros [<-|Hin]; auto.
    + intros [<-|Hin]; auto. destruct (IH Hin); auto.
Qed.

Lemma wf_set k v d : Dict.wf d -> Dict.wf (Dict.set k v d).
Proof.
  unfold Dict.wf. induction d as [|[k0 v0] d IH]; simpl.
  - intros _. constructor; [tauto|constructor].
  - intros Hnd. inversion Hnd as [|? ? Hnotin Hnd']; subst.
    destruct (String.eqb_spec k k0) as [->|Hk]; simpl.
    + now constructor.
    + constructor; auto.
      intros Hin. apply keys_set_in in Hin as [->|Hin]; auto.
Qed.

Lemma len_del k v d :
  Dict.get k d = Some v -> Dict.len (Dict.del k d) = Dict.len d - 1.
Proof.
  unfold Dict.len. induction d as [|[k0 v0] d IH]; cbn [Dict.get Dict.del];
    [discriminate|].
  destruct (String.eqb k k0); intros Hg.
  - cbn [List.length]. lia.
  - specialize (IH Hg). cbn [List.length]. lia.
Qed.

Lemma len_set_present k v v0 d :
  Dict.get k d = Some v0 -> Dict.len (Dict.set k v d) = Dict.len d.
Proof.
  unfold Dict.len. induction d as [|[k1 v1] d IH]; cbn [Dict.get Dict.set];
    [discriminate|].
  destruct (String.eqb k k1); intros Hg; cbn [List.length]; auto.
  specialize (IH Hg). lia.
Qed.

Lemma len_set_absent k v d :
  Dict.get k d = None -> Dict.len (Dict.set k v d) = Dict.len d + 1.
Proof.
  unfold Dict.len. induction d as [|[k1 v1] d IH]; cbn [Dict.get Dict.set].
  - intros _. cbn [List.length]. lia.
  - destruct (String.eqb k k1); intros Hg; [discriminate|].
    specialize (IH Hg). cbn [List.length]. lia.
Qed.

Lemma len_set_le k v d : Dict.len (Dict.set k v d) <= Dict.len d + 1.
Proof.
  destruct (Dict.get k d) eqn:E.
  - rewrite (len_set_present _ _ _ _ E). lia.
  - rewrite (len_set_absent _ _ _ E). lia.
Qed.

Lemma set_absent_app k v d :
  Dict.get k d = None -> Dict.set k v d = d ++ [(k, v)].
Proof.
  induction d as [|[k1 v1] d IH]; simpl; auto.
  destruct (String.eqb k k1); [discriminate|].
  intros Hg. now rewrite IH.
Qed.

Lemma len_nonneg d : 0 <= Dict.len d.
Proof. unfold Dict.len. lia. Qed.

End DictFacts.
End DictFacts.

Lemma distinct_NoDup ks : distinct ks = true -> NoDup ks.
Proof.
  induction ks as [|k ks IH]; simpl; [constructor|].
  intros H. apply andb_prop in H as [Hk Hd].
  constructor; auto.
  intros Hin. apply negb_true_iff in Hk.
  assert (existsb (String.eqb k) ks = true); [|congruence].
  apply existsb_exists. exists k. split; auto. apply String.eqb_refl.
Qed.

(** ** [min] *)

Section MinFacts.
Context {A : Type} (f : A -> Z).

Lemma min_from_in best xs : In (min_from f best xs) (best :: xs).
Proof.
  revert best. induction xs as [|x xs IH]; intros best; simpl; auto.
  destruct (f x <? f best).
  - right. apply IH.
  - destruct (IH best) as [H|H]; simpl in *; auto.
Qed.

Lemma min_from_le best xs :
  f (min_from f best xs) <= f best /\
  forall x, In x xs -> f (min_from f best xs) <= f x.
Proof.
  revert best. induction xs as [|x xs IH]; intros best; simpl.
  - split; [lia|tauto].
  - destruct (Z.ltb_spec (f x) (f best)) as [Hlt|Hge].
    + destruct (IH x) as [H1 H2]. split; [lia|].
      intros y [<-|Hy]; auto.
    + destruct (IH best) as [H1 H2]. split; auto.
      intros y [<-|Hy]; auto. lia.
Qed.

(** Ties go to the earlier element. *)
Lemma min_from_first best xs :
  (forall x, In x xs -> f best <= f x) -> min_from f best xs = best.
Proof.
  induction xs as [|x xs IH]; simpl; auto.
  intros H. destruct (Z.ltb_spec (f x) (f best)) as [Hlt|Hge].
  - specialize (H x (or_introl eq_refl)). lia.
  - apply IH. intros y Hy. apply H. auto.
Qed.

End MinFacts.

(** ** The cache *)

Section CacheFacts.
Context {Data : Type}.
Implicit Types (c : cache Data) (key : string) (data : Data) (now : Z).

Import DictFacts.

Lemma stored_at_get c k data timestamp :
  Dict.get k c = Some (data, timestamp) -> stored_at c k = timestamp.
Proof. unfold stored_at. now intros ->. Qed.

(** Below the capacity [set_cache] only writes the entry. *)
Lemma set_cache_below now key data c :
  Dict.len c < CACHE_MAX_SIZE ->
  set_cache now key data c = Dict.set key (data, now) c.
Proof.
  intros H. unfold set_cache.
  destruct (Z.leb_spec CACHE_MAX_SIZE (Dict.len c)); [lia|reflexivity].
Qed.

(** At or above the capacity it first deletes the key that [min] picks,
    which holds a smallest timestamp. *)
Lemma set_cache_full now key data c :
  CACHE_MAX_SIZE <= Dict.len c ->
  exists victim,
    py_min (stored_at c) (Dict.keys c) = Some victim /\
    oldest c victim /\
    set_cache now key data c = Dict.set key (data, now) (Dict.del victim c).
Proof.
  intros Hfull. unfold set_cache.
  destruct (Z.leb_spec CACHE_MAX_SIZE (Dict.len c)) as [_|]; [|lia].
  destruct (Dict.keys c) as [|k0 ks] eqn:Hkeys.
  - destruct c; [|discriminate]. unfold Dict.len, CACHE_MAX_SIZE in Hfull.
    simpl in Hfull. lia.
  - simpl. exists (min_from (stored_at c) k0 ks). repeat split; auto.
    pose proof (min_from_in (stored_at c) k0 ks) as Hin.
    rewrite <- Hkeys in Hin.
    apply in_get_some in Hin as [[d ts] Hget].
    exists d, ts. split; auto.
    intros k' d' ts' Hget'.
    rewrite <- (stored_at_get _ _ _ _ Hget), <- (stored_at_get _ _ _ _ Hget').
    apply get_some_in in Hget'. rewrite Hkeys in Hget'.
    destruct (min_from_le (stored_at c) k0 ks) as [H1 H2].
    destruct Hget' as [<-|Hin']; auto.
Qed.

Lemma len_del_le k c : Dict.len (Dict.del k c) <= Dict.len c.
Proof.
  destruct (Dict.get k c) eqn:E.
  - rewrite (len_del _ _ _ E). lia.
  - assert (Dict.del k c = c) as ->; [|lia].
    induction c as [|[k0 v0] c IH]; simpl in *; auto.
    destruct (String.eqb k k0); [discriminate|]. now rewrite IH.
Qed.

Lemma wf_set_cache now key data c :
  Dict.wf c -> Dict.wf (set_cache now key data c).
Proof.
  intros Hwf. unfold set_cache. apply wf_set.
  destruct (CACHE_MAX_SIZE <=? Dict.len c); auto.
  destruct (py_min _ _); auto. now apply wf_del.
Qed.

Lemma len_set_cache now key data c :
  Dict.len c <= CACHE_MAX_SIZE ->
  Dict.len (set_cache now key data c) <= CACHE_MAX_SIZE.
Proof.
  intros Hle. destruct (Z.lt_ge_cases (Dict.len c) CACHE_MAX_SIZE) as [Hlt|Hge].
  - rewrite set_cache_below by assumption.
    pose proof (len_set_le key (data, now) c). lia.
  - destruct (set_cache_full now key data c Hge)
      as (victim & _ & (d & ts & Hget & _) & ->).
    pose proof (len_set_le key (data, now) (Dict.del victim c)).
    rewrite (len_del _ _ _ Hget) in *. lia.
Qed.

Lemma wf_get_from_cache now key c :
  Dict.wf c -> Dict.wf (snd (get_from_cache now key c)).
Proof.
  intros Hwf. unfold get_from_cache.
  destruct (Dict.get key c) as [[d ts]|]; auto.
  destruct (now - ts <? CACHE_TTL); simpl; auto. now apply wf_del.
Qed.

Lemma len_get_from_cache now key c :
  Dict.len (snd (get_from_cache now key c)) <= Dict.len c.
Proof.
  unfold get_from_cache.
  destruct (Dict.get key c) as [[d ts]|]; simpl; try lia.
  destruct (now - ts <? CACHE_TTL); simpl; try lia. apply len_del_le.
Qed.

Lemma cache_inv_empty : cache_inv ([] : cache Data).
Proof. split; [constructor|]. unfold Dict.len, CACHE_MAX_SIZE. simpl. lia. Qed.

Lemma cache_inv_step c op : cache_inv c -> cache_inv (apply_op c op).
Proof.
  intros [Hwf Hlen]. destruct op as [now key|now key data|]; simpl.
  - split; [now apply wf_get_from_cache|].
    pose proof (len_get_from_cache now key c). lia.
  - split; [now apply wf_set_cache|now apply len_set_cache].
  - apply cache_inv_empty.
Qed.

Lemma cache_inv_run ops c : cache_inv c -> cache_inv (run ops c).
Proof.
  revert c. unfold run.
  induction ops as [|op ops IH]; intros c Hinv; simpl; auto.
  apply IH. now apply cache_inv_step.
Qed.

Lemma keys_entry_of (inss : list (string * Data * Z)) :
  Dict.keys (map entry_of inss) = map ins_key inss.
Proof.
  unfold Dict.keys. rewrite map_map. apply map_ext.
  now intros [[k d] t].
Qed.

(** Inserting distinct keys into a cache that has room appends them in
    order. *)
Lemma run_inserts_room (inss : list (string * Data * Z)) c :
  NoDup (Dict.keys c ++ map ins_key inss) ->
  Dict.len c + Z.of_nat (List.length inss) <= CACHE_MAX_SIZE ->
  run (map op_of inss) c = c ++ map entry_of inss.
Proof.
  revert c. induction inss as [|[[k d] t] inss IH]; intros c Hnd Hlen.
  - simpl. now rewrite app_nil_r.
  - cbn [map List.length] in *. unfold run in *. cbn [fold_left].
    cbn [op_of apply_op]. rewrite set_cache_below by lia.
    assert (Habs : Dict.get k c = None).
    { destruct (Dict.get k c) eqn:E; auto.
      apply get_some_in in E. apply NoDup_remove_2 in Hnd.
      exfalso. apply Hnd. apply in_or_app. auto. }
    rewrite (set_absent_app _ _ _ Habs).
    rewrite IH.
    + now rewrite <- app_assoc.
    + unfold Dict.keys in *. rewrite map_app. simpl.
      rewrite <- app_assoc. exact Hnd.
    + unfold Dict.len in *. rewrite length_app. simpl. lia.
Qed.

End CacheFacts.

Section CacheClaims.
Context {Data : Type}.
Implicit Types (c : cache Data) (key : string) (data : Data) (now : Z).

Import DictFacts.

Lemma get_entry_of (inss : list (string * Data * Z)) ins :
  NoDup (map ins_key inss) -> In ins inss ->
  Dict.get (ins_key ins) (map entry_of inss) = Some (snd (entry_of ins)).
Proof.
  induction inss as [|[[k d] t] inss IH]; simpl; [tauto|].
  intros Hnd [<-|Hin].
  - simpl. unfold ins_key. simpl. now rewrite String.eqb_refl.
  - inversion Hnd as [|? ? Hnotin Hnd']; subst.
    destruct (String.eqb_spec (ins_key ins) k) as [E|_]; auto.
    exfalso. apply Hnotin. unfold ins_key at 1. cbn [fst]. rewrite <- E.
    now apply in_map.
Qed.

(** The run at the heart of the capacity property: one insert more than
    the cache holds leaves all but the first. *)
Lemma run_inserts_overflow (first : string * Data * Z) rest :
  Z.of_nat (List.length rest) = CACHE_MAX_SIZE ->
  NoDup (map ins_key (first :: rest)) ->
  Sorted Z.le (map ins_time (first :: rest)) ->
  run (map op_of (first :: rest)) [] = map entry_of rest.
Proof.
  intros Hlen Hnd Hsorted.
  destruct (exists_last (l := rest)) as (init & last & ->).
  { intros ->. unfold CACHE_MAX_SIZE in Hlen. simpl in Hlen. lia. }
  rewrite length_app in Hlen. simpl in Hlen.
  rewrite app_comm_cons, map_app. unfold run. rewrite fold_left_app.
  fold (run (map op_of (first :: init)) []).
  rewrite app_comm_cons, map_app in Hnd.
  rewrite run_inserts_room.
  2:{ simpl. apply NoDup_app_remove_r in Hnd. exact Hnd. }
  2:{ unfold Dict.len. simpl List.length. lia. }
  rewrite app_nil_l. destruct last as [[kl dl] tl].
  cbn [map fold_left op_of apply_op].
  change (entry_of first :: map entry_of init)
    with (map entry_of (first :: init)).
  set (c := map entry_of (first :: init)).
  assert (Hfull : CACHE_MAX_SIZE <= Dict.len c).
  { unfold c, Dict.len. rewrite length_map. simpl List.length. lia. }
  destruct (set_cache_full tl kl dl c Hfull) as (victim & Hmin & _ & ->).
  assert (victim = ins_key first) as ->.
  { unfold c in Hmin. rewrite keys_entry_of in Hmin. simpl in Hmin.
    injection Hmin as <-. apply min_from_first.
    intros k Hk. apply in_map_iff in Hk as (ins & <- & Hins).
    assert (Hnd' : NoDup (map ins_key (first :: init))).
    { apply NoDup_app_remove_r in Hnd. exact Hnd. }
    unfold stored_at.
    change (entry_of first :: map entry_of init)
      with (map entry_of (first :: init)).
    rewrite (get_entry_of (first :: init) first Hnd' (or_introl eq_refl)).
    rewrite (get_entry_of (first :: init) ins Hnd' (or_intror Hins)).
    apply Sorted_StronglySorted in Hsorted; [|intros x y z; lia].
    inversion Hsorted as [|? ? _ Hall]; subst.
    rewrite Forall_forall in Hall.
    destruct first as [[kf df] tf], ins as [[ki di] ti]. simpl.
    apply (Hall ti). rewrite map_app. apply in_or_app. left.
    change ti with (ins_time (ki, di, ti)). now apply in_map. }
  unfold c. destruct first as [[kf df] tf].
  cbn [map entry_of ins_key fst Dict.del].
  rewrite String.eqb_refl. rewrite set_absent_app.
  - rewrite map_app. reflexivity.
  - destruct (Dict.get kl (map entry_of init)) eqn:E; auto.
    apply get_some_in in E. rewrite keys_entry_of in E.
    exfalso. simpl in Hnd. inversion Hnd as [|? ? _ Hnd']; subst.
    apply NoDup_remove_2 in Hnd'. apply Hnd'. rewrite app_nil_r. exact E.
Qed.

(** C1 (as amended): [set_cache] evicts exactly when the cache holds at
    least [CACHE_MAX_SIZE] entries, whether or not the key is already
    there.  Below the capacity it only writes the entry, so every other key
    keeps its entry; at or above the capacity it deletes a key with a
    smallest timestamp and then writes the entry. *)
Theorem set_cache_evicts_iff_full now key data c :
  Dict.wf c ->
  (Dict.len c < CACHE_MAX_SIZE ->
     set_cache now key data c = Dict.set key (data, now) c /\
     forall k, k <> key ->
       Dict.get k (set_cache now key data c) = Dict.get k c) /\
  (CACHE_MAX_SIZE <= Dict.len c ->
     exists victim,
       oldest c victim /\
       set_cache now key data c
         = Dict.set key (data, now) (Dict.del victim c) /\
       (victim <> key -> Dict.get victim (set_cache now key data c) = None)).
Proof.
  intros Hwf. split.
  - intros Hlt. rewrite set_cache_below by assumption. split; auto.
    intros k Hk. apply get_set_other. congruence.
  - intros Hfull.
    destruct (set_cache_full now key data c Hfull) as (victim & _ & Hold & Heq).
    exists victim. repeat split; auto.
    intros Hne. rewrite Heq, get_set_other by congruence.
    now apply get_del_same.
Qed.

(** C3: [get_from_cache] returns the stored data exactly when the key is
    present and [now - timestamp < CACHE_TTL]: an entry written at [T] is
    returned at [T + CACHE_TTL - 1] and not at [T + CACHE_TTL].  A lookup
    that finds an expired entry deletes it and nothing else; a lookup of an
    absent key, and one that is served, leave the cache as it was. *)
Theorem get_from_cache_ttl now key c :
  (forall data,
     fst (get_from_cache now key c) = Some data <->
     exists timestamp,
       Dict.get key c = Some (data, timestamp) /\
       now - timestamp < CACHE_TTL) /\
  (forall T data,
     fst (get_from_cache (T + CACHE_TTL - 1) key (set_cache T key data c))
       = Some data /\
     fst (get_from_cache (T + CACHE_TTL) key (set_cache T key data c))
       = None) /\
  (forall data timestamp,
     Dict.wf c ->
     Dict.get key c = Some (data, timestamp) ->
     CACHE_TTL <= now - timestamp ->
     snd (get_from_cache now key c) = Dict.del key c /\
     Dict.get key (snd (get_from_cache now key c)) = None /\
     Dict.len (snd (get_from_cache now key c)) = Dict.len c - 1 /\
     forall k, k <> key ->
       Dict.get k (snd (get_from_cache now key c)) = Dict.get k c) /\
  (Dict.get key c = None -> snd (get_from_cache now key c) = c) /\
  (forall data,
     fst (get_from_cache now key c) = Some data ->
     snd (get_from_cache now key c) = c).
Proof.
  repeat apply conj.
  - intros data. unfold get_from_cache.
    destruct (Dict.get key c) as [[d ts]|]; simpl.
    + destruct (Z.ltb_spec (now - ts) CACHE_TTL); simpl; split.
      * intros [= ->]. eauto.
      * intros (ts' & [= -> ->] & _). reflexivity.
      * discriminate.
      * intros (ts' & [= -> ->] & ?). lia.
    + split; [discriminate|]. intros (? & ? & _). discriminate.
  - intros T data. unfold get_from_cache.
    assert (Hg : Dict.get key (set_cache T key data c) = Some (data, T))
      by apply get_set_same.
    rewrite Hg.
    destruct (Z.ltb_spec (T + CACHE_TTL - 1 - T) CACHE_TTL); [|lia].
    destruct (Z.ltb_spec (T + CACHE_TTL - T) CACHE_TTL); [lia|].
    split; reflexivity.
  - intros data ts Hwf Hget Hexp. unfold get_from_cache. rewrite Hget.
    destruct (Z.ltb_spec (now - ts) CACHE_TTL); [lia|]. simpl.
    repeat split.
    + now apply get_del_same.
    + now apply (len_del _ _ _ Hget).
    + intros k Hk. apply get_del_other. congruence.
  - intros Hnone. unfold get_from_cache. now rewrite Hnone.
  - intros data. unfold get_from_cache.
    destruct (Dict.get key c) as [[d ts]|]; simpl; auto.
    destruct (now - ts <? CACHE_TTL); simpl; auto. discriminate.
Qed.

(** C4: every run of cache operations from the empty cache leaves at most
    [CACHE_MAX_SIZE] entries, and a lookup never changes an entry it leaves
    in place.  An insert into a full cache removes exactly one entry, one
    with a smallest timestamp, before it writes.  Inserting
    [CACHE_MAX_SIZE + 1] distinct keys at non-decreasing times into the
    empty cache leaves exactly the last [CACHE_MAX_SIZE] of them: the first
    one inserted is gone. *)
Theorem set_cache_capacity :
  (forall ops : list (cache_op Data),
     Dict.wf (run ops []) /\ Dict.len (run ops []) <= CACHE_MAX_SIZE) /\
  (forall now key c k entry,
     Dict.wf c ->
     Dict.get k (snd (get_from_cache now key c)) = Some entry ->
     Dict.get k c = Some entry) /\
  (forall now key data c,
     Dict.wf c -> CACHE_MAX_SIZE <= Dict.len c ->
     exists victim,
       oldest c victim /\
       set_cache now key data c
         = Dict.set key (data, now) (Dict.del victim c) /\
       Dict.len (Dict.del victim c) = Dict.len c - 1 /\
       Dict.get victim (Dict.del victim c) = None /\
       forall k, k <> victim ->
         Dict.get k (Dict.del victim c) = Dict.get k c) /\
  (forall (first : string * Data * Z) rest,
     Z.of_nat (List.length rest) = CACHE_MAX_SIZE ->
     NoDup (map ins_key (first :: rest)) ->
     Sorted Z.le (map ins_time (first :: rest)) ->
     let c := run (map op_of (first :: rest)) [] in
     Dict.len c = CACHE_MAX_SIZE /\
     Dict.get (ins_key first) c = None /\
     forall ins, In ins rest ->
       Dict.get (ins_key ins) c = Some (snd (entry_of ins))).
Proof.
  repeat apply conj.
  - intros ops. apply (cache_inv_run ops []), cache_inv_empty.
  - intros now key c k entry Hwf. unfold get_from_cache.
    destruct (Dict.get key c) as [[d ts]|] eqn:Hg; simpl; auto.
    destruct (now - ts <? CACHE_TTL); simpl; auto.
    destruct (String.eqb_spec key k) as [->|Hne].
    + rewrite get_del_same by assumption. discriminate.
    + now rewrite get_del_other.
  - intros now key data c Hwf Hfull.
    destruct (set_cache_full now key data c Hfull)
      as (victim & _ & Hold & Heq).
    exists victim. destruct Hold as (d & ts & Hget & Hmin).
    repeat split; auto.
    + exists d, ts. auto.
    + now apply (len_del _ _ _ Hget).
    + now apply get_del_same.
    + intros k Hk. apply get_del_other. congruence.
  - intros first rest Hlen Hnd Hsorted c. unfold c.
    rewrite run_inserts_overflow by assumption.
    repeat split.
    + unfold Dict.len. now rewrite length_map.
    + destruct (Dict.get (ins_key first) (map entry_of rest)) eqn:E; auto.
      apply get_some_in in E. rewrite keys_entry_of in E.
      inversion Hnd; contradiction.
    + intros ins Hin. apply get_entry_of; auto. now inversion Hnd.
Qed.

End CacheClaims.

(** The sample cache is full, holds ["50"], and its oldest entry is ["0"]. *)
Lemma full_cache_facts :
  Dict.wf full_cache /\ Dict.len full_cache = CACHE_MAX_SIZE /\
  Dict.get "50" full_cache = Some (JInt 50, 50) /\
  Dict.get "0" full_cache = Some (JInt 0, 0).
Proof.
  split; [apply distinct_NoDup; vm_compute; reflexivity|].
  vm_compute. auto.
Qed.

(** C1, counterexample: the cache is full and ["50"] is present; writing
    ["50"] again evicts the entry of ["0"]. *)
Lemma set_cache_present_key_evicts :
  Dict.get "50" full_cache = Some (JInt 50, 50) /\
  Dict.get "0" full_cache = Some (JInt 0, 0) /\
  Dict.get "0" (set_cache 200 "50" (JInt 7) full_cache) = None /\
  Dict.len (set_cache 200 "50" (JInt 7) full_cache) = CACHE_MAX_SIZE - 1.
Proof. vm_compute. auto. Qed.

Lemma set_cache_evicts_iff_full_witness :
  exists victim,
    oldest full_cache victim /\
    set_cache 200 "50" (JInt 7) full_cache
      = Dict.set "50" (JInt 7, 200) (Dict.del victim full_cache) /\
    (victim <> "50" ->
     Dict.get victim (set_cache 200 "50" (JInt 7) full_cache) = None).
Proof.
  refine (proj2 (set_cache_evicts_iff_full 200 "50" (JInt 7) full_cache _) _).
  - apply distinct_NoDup. vm_compute. reflexivity.
  - vm_compute. discriminate.
Defined.

Lemma get_from_cache_ttl_witness :
  snd (get_from_cache 3600 "0" full_cache) = Dict.del "0" full_cache /\
  Dict.get "0" (snd (get_from_cache 3600 "0" full_cache)) = None /\
  Dict.len (snd (get_from_cache 3600 "0" full_cache))
    = Dict.len full_cache - 1 /\
  forall k, k <> "0" ->
    Dict.get k (snd (get_from_cache 3600 "0" full_cache))
      = Dict.get k full_cache.
Proof.
  refine (proj1 (proj2 (proj2 (get_from_cache_ttl 3600 "0" full_cache)))
                (JInt 0) 0 _ _ _).
  - apply distinct_NoDup. vm_compute. reflexivity.
  - vm_compute. reflexivity.
  - vm_compute. discriminate.
Defined.

Lemma set_cache_capacity_witness :
  let c := run (map op_of (hundred_inserts ++ [("100", JInt 100, 100)])) [] in
  Dict.len c = CACHE_MAX_SIZE /\
  Dict.get "0" c = None /\
  forall ins, In ins (tl hundred_inserts ++ [("100", JInt 100, 100)]) ->
    Dict.get (ins_key ins) c = Some (snd (entry_of ins)).
Proof.
  refine (proj2 (proj2 (proj2 (@set_cache_capacity json)))
                ("0", JInt 0, 0)
                (tl hundred_inserts ++ [("100", JInt 100, 100)]) _ _ _).
  - vm_compute. reflexivity.
  - apply distinct_NoDup. vm_compute. reflexivity.
  - vm_compute. repeat constructor; discriminate.
Defined.

(** ** Cache keys *)

Lemma append_cancel_l (a x y : string) :
  (a ++ x)%string = (a ++ y)%string -> x = y.
Proof. induction a as [|c a IH]; simpl; auto. intros [= H]. auto. Qed.

Lemma append_empty_r (s : string) : (s ++ "")%string = s.
Proof. induction s as [|c s IH]; simpl; congruence. Qed.

Lemma split_no_char x s : has_char x s = false -> Py.split x s = [s].
Proof.
  induction s as [|c s IH]; simpl; auto.
  intros H. apply orb_false_elim in H as [Hc Hs].
  rewrite Hc, (IH Hs). reflexivity.
Qed.

Lemma split_app_sep x a r :
  has_char x a = false ->
  Py.split x (a ++ String x r) = a :: Py.split x r.
Proof.
  induction a as [|c a IH]; simpl.
  - intros _. now rewrite Ascii.eqb_refl.
  - intros H. apply orb_false_elim in H as [Hc Ha].
    rewrite Hc, (IH Ha). reflexivity.
Qed.

Lemma key_string_cons p q ps :
  key_string (p :: q :: ps) = (p ++ String "_" (key_string (q :: ps)))%string.
Proof. reflexivity. Qed.

(** Splitting the key string at the separator gives the arguments back when
    none of them contains it. *)
Lemma split_key_string p ps :
  Forall no_sep (p :: ps) -> Py.split "_" (key_string (p :: ps)) = p :: ps.
Proof.
  revert p. induction ps as [|q ps IH]; intros p Hall.
  - inversion Hall; subst. now apply split_no_char.
  - inversion Hall as [|? ? Hp Hrest]; subst.
    rewrite key_string_cons, split_app_sep by exact Hp.
    now rewrite IH.
Qed.

(** The first piece of the key string is the namespace, whatever follows. *)
Lemma hd_split_key_string ns parts :
  no_sep ns -> hd EmptyString (Py.split "_" (key_string (ns :: parts))) = ns.
Proof.
  intros Hns. destruct parts as [|q ps].
  - simpl. unfold key_string, Py.join. simpl. now rewrite split_no_char.
  - now rewrite key_string_cons, split_app_sep.
Qed.

Lemma chr_ord c :
  if Py.ord c <? 128 then chr (Py.ord c) = c
  else (Z.lor 192 (Z.shiftr (Py.ord c) 6) <? 128) = false /\
       chr ((Z.lor 192 (Z.shiftr (Py.ord c) 6) - 192) * 64
            + (Z.lor 128 (Z.land (Py.ord c) 63) - 128)) = c.
Proof.
  destruct c as [[] [] [] [] [] [] [] []]; vm_compute; auto.
Qed.

Lemma decode_encode s : decode (Py.encode s) = s.
Proof.
  induction s as [|c s IH]; auto.
  cbn [Py.encode]. pose proof (chr_ord c) as H.
  destruct (Py.ord c <? 128) eqn:E; cbn [decode].
  - rewrite E, H, IH. reflexivity.
  - destruct H as [H1 H2]. rewrite H1, H2, IH. reflexivity.
Qed.

Lemma encode_inj s1 s2 : Py.encode s1 = Py.encode s2 -> s1 = s2.
Proof.
  intros H. rewrite <- (decode_encode s1), <- (decode_encode s2). now f_equal.
Qed.

Lemma key_string_inj_no_sep ns1 parts1 ns2 parts2 :
  Forall no_sep (ns1 :: parts1) -> Forall no_sep (ns2 :: parts2) ->
  key_string (ns1 :: parts1) = key_string (ns2 :: parts2) ->
  ns1 :: parts1 = ns2 :: parts2.
Proof.
  intros H1 H2 E.
  rewrite <- (split_key_string _ _ H1), <- (split_key_string _ _ H2).
  now f_equal.
Qed.

(** Under one namespace, which may itself contain the separator. *)
Lemma key_string_same_namespace ns parts parts' :
  Forall no_sep parts -> Forall no_sep parts' ->
  key_string (ns :: parts) = key_string (ns :: parts') -> parts = parts'.
Proof.
  intros H1 H2 E.
  destruct parts as [|p ps], parts' as [|p' ps']; auto.
  - rewrite key_string_cons in E. change (key_string [ns]) with ns in E.
    rewrite <- (append_empty_r ns) in E at 1.
    apply append_cancel_l in E. discriminate.
  - rewrite key_string_cons in E. change (key_string [ns]) with ns in E.
    rewrite <- (append_empty_r ns) in E at 2.
    apply append_cancel_l in E. discriminate.
  - rewrite !key_string_cons in E. apply append_cancel_l in E.
    injection E as E. now apply key_string_inj_no_sep.
Qed.

(** C5, counterexample: two different requests for matches, both with ranks
    that [int] accepts, get the same cache key. *)
Lemma cache_key_collision :
  ("matches", ["1_0"; "5"]) <> ("matches", ["1"; "0_5"]) /\
  cache_key_generator ["matches"; "1_0"; "5"]
    = cache_key_generator ["matches"; "1"; "0_5"] /\
  has_char "_" "1_0" = true /\
  (Py.int "1_0", Py.int "5") = (Some 10, Some 5) /\
  (Py.int "1", Py.int "0_5") = (Some 1, Some 5).
Proof.
  split; [discriminate|]. split; [|vm_compute; auto].
  unfold cache_key_generator. do 2 f_equal.
Qed.

(** C5 (as amended): the key is the MD5 digest of the UTF-8 bytes of the
    arguments joined with ["_"].  On argument lists none of whose members
    contains ["_"] the joined string, and so the hashed bytes, determine
    the namespace and the parts; two different namespaces without ["_"],
    as the six of the endpoints are, never give the same joined string,
    whatever the parts. *)
Theorem key_string_injective_without_separator :
  (forall ns1 parts1 ns2 parts2,
     Forall no_sep (ns1 :: parts1) -> Forall no_sep (ns2 :: parts2) ->
     (ns1, parts1) <> (ns2, parts2) ->
     key_string (ns1 :: parts1) <> key_string (ns2 :: parts2) /\
     Py.encode (key_string (ns1 :: parts1))
       <> Py.encode (key_string (ns2 :: parts2))) /\
  (forall ns1 parts1 ns2 parts2,
     no_sep ns1 -> no_sep ns2 -> ns1 <> ns2 ->
     key_string (ns1 :: parts1) <> key_string (ns2 :: parts2)) /\
  Forall no_sep ["matrix"; "matches"; "rankings";
                 "WWPmatrix"; "WWPmatches"; "WWPankings"] /\
  (forall args args',
     key_string args = key_string args' ->
     cache_key_generator args = cache_key_generator args').
Proof.
  repeat apply conj.
  - intros ns1 parts1 ns2 parts2 H1 H2 Hne.
    assert (Hk : key_string (ns1 :: parts1) <> key_string (ns2 :: parts2)).
    { intros E. apply Hne.
      pose proof (key_string_inj_no_sep _ _ _ _ H1 H2 E) as [= -> ->].
      reflexivity. }
    split; auto. intros E. apply Hk. now apply encode_inj.
  - intros ns1 parts1 ns2 parts2 H1 H2 Hne E. apply Hne.
    rewrite <- (hd_split_key_string ns1 parts1 H1),
            <- (hd_split_key_string ns2 parts2 H2).
    now rewrite E.
  - repeat constructor.
  - intros args args' E. unfold cache_key_generator. now rewrite E.
Qed.

Lemma key_string_injective_without_separator_witness :
  key_string ["matches"; "3"; "9"] <> key_string ["WWPmatches"; "3"; "9"] /\
  Py.encode (key_string ["matches"; "3"; "9"])
    <> Py.encode (key_string ["WWPmatches"; "3"; "9"]).
Proof.
  refine (proj1 key_string_injective_without_separator
                "matches" ["3"; "9"] "WWPmatches" ["3"; "9"] _ _ _).
  - repeat constructor.
  - repeat constructor.
  - discriminate.
Defined.

(** C10, counterexample: ["1_1"] and ["1"] are different parts, and the key
    is the same in either order. *)
Lemma cache_key_swap_collision :
  "1_1" <> "1" /\
  cache_key_generator ["matches"; "1_1"; "1"]
    = cache_key_generator ["matches"; "1"; "1_1"].
Proof.
  split; [discriminate|]. unfold cache_key_generator. do 2 f_equal.
Qed.

(** C10 (as amended): the key is a function of the argument list alone, so
    equal arguments give equal keys; the keys of ["matches", "3", "9"] and
    ["matches", "9", "3"] differ; and under any namespace two different
    sequences of parts without ["_"], in particular two different parts in
    the two orders, give different joined strings to hash. *)
Theorem cache_key_deterministic_order_sensitive :
  (forall args args',
     args = args' -> cache_key_generator args = cache_key_generator args') /\
  cache_key_generator ["matches"; "3"; "9"]
    <> cache_key_generator ["matches"; "9"; "3"] /\
  (forall ns a b,
     no_sep a -> no_sep b -> a <> b ->
     key_string [ns; a; b] <> key_string [ns; b; a]) /\
  (forall ns parts parts',
     Forall no_sep parts -> Forall no_sep parts' -> parts <> parts' ->
     key_string (ns :: parts) <> key_string (ns :: parts')).
Proof.
  repeat apply conj.
  - intros args args' ->. reflexivity.
  - vm_compute. discriminate.
  - intros ns a b Ha Hb Hne E.
    apply key_string_same_namespace in E; [|repeat constructor; auto..].
    congruence.
  - intros ns parts parts' H1 H2 Hne E. apply Hne.
    now apply (key_string_same_namespace ns).
Qed.

Lemma cache_key_deterministic_order_sensitive_witness :
  key_string ["matches"; "3"; "9"] <> key_string ["matches"; "9"; "3"].
Proof.
  refine (proj1 (proj2 (proj2 cache_key_deterministic_order_sensitive))
                "matches" "3" "9" _ _ _).
  - reflexivity.
  - reflexivity.
  - discriminate.
Defined.

(** ** The handlers' frame *)

Lemma cached_miss now_get now_set cache_key compute c :
  cache_miss now_get cache_key c ->
  cached now_get now_set cache_key compute c =
    match compute with
    | Ok result_data =>
        (Ok200 result_data,
         set_cache now_set cache_key result_data
                   (snd (get_from_cache now_get cache_key c)))
    | Raise e => (Err500 e, snd (get_from_cache now_get cache_key c))
    end.
Proof.
  unfold cache_miss, cached.
  destruct (get_from_cache now_get cache_key c) as [cached_data c1]; simpl.
  now intros ->.
Qed.

Lemma cache_miss_empty now cache_key : cache_miss now cache_key [].
Proof. reflexivity. Qed.

(** ** Matches *)

(** C6: with both ranks convertible, the lookup computes the one key
    [matches_key row col] and reads the first document of the collection
    under that key and no other: documents that agree under it give the same
    answer.  If the key is absent the lookup raises [KeyError], and on a
    cache miss the request ends in the 500 response and stores nothing,
    whatever the document holds under the mirrored key. *)
Theorem matches_lookup_single_key
    namespace now_get now_set row_rank col_rank row col c :
  Py.int row_rank = Some row ->
  Py.int col_rank = Some col ->
  matches_key row col
    = (Py.str_of_int (row - 1) ++ "_" ++ Py.str_of_int (col - 1))%string /\
  (forall doc rest doc' rest',
     Dict.get (matches_key row col) doc = Dict.get (matches_key row col) doc' ->
     matches_lookup (doc :: rest) row_rank col_rank
       = matches_lookup (doc' :: rest') row_rank col_rank) /\
  (forall doc rest,
     Dict.get (matches_key row col) doc = None ->
     matches_lookup (doc :: rest) row_rank col_rank
       = Raise (KeyError (matches_key row col)) /\
     (cache_miss now_get
                 (cache_key_generator [namespace; row_rank; col_rank]) c ->
      matches_handler namespace (doc :: rest) now_get now_set
                      row_rank col_rank c
        = (Err500 (KeyError (matches_key row col)),
           snd (get_from_cache
                  now_get
                  (cache_key_generator [namespace; row_rank; col_rank]) c)))).
Proof.
  intros Hrow Hcol. split; [reflexivity|]. split.
  - intros doc rest doc' rest' Hsame. unfold matches_lookup.
    rewrite Hrow, Hcol. simpl. now rewrite Hsame.
  - intros doc rest Habsent.
    assert (Hraise : matches_lookup (doc :: rest) row_rank col_rank
                     = Raise (KeyError (matches_key row col))).
    { unfold matches_lookup. rewrite Hrow, Hcol. simpl. now rewrite Habsent. }
    split; auto. intros Hmiss. unfold matches_handler.
    rewrite cached_miss by assumption. now rewrite Hraise.
Qed.

(** Ranks (3, 9) ask for ["2_8"]; a document that only has ["8_2"] fails. *)
Lemma matches_lookup_single_key_witness :
  get_matches [[("8_2", JList [JStr "a game"])]] 0 0 "3" "9" []
    = (Err500 (KeyError "2_8"), []).
Proof.
  refine (proj2 (proj2 (proj2 (matches_lookup_single_key
                                 "matches" 0 0 "3" "9" 3 9 [] _ _))
                       [("8_2", JList [JStr "a game"])] [] _) _).
  - reflexivity.
  - reflexivity.
  - reflexivity.
  - apply cache_miss_empty.
Defined.

(** ** Ranking history *)

Lemma strptime_mdY_raise data e :
  Datetime.strptime_mdY data = Raise e -> e = ValueError data.
Proof.
  unfold Datetime.strptime_mdY, Datetime.finish.
  destruct (flat_map _ _) as [|[[[y m] d] [|? ?]] ?]; try congruence.
  destruct (Datetime.make y m d); simpl; congruence.
Qed.

(** A malformed label stops the scan at the first one. *)
Lemma scan_groups_malformed start_dt end_dt teams groups history :
  (exists label entries e,
     In (label, entries) groups /\
     Datetime.strptime_mdY (label_date label) = Raise e) ->
  exists label entries,
    In (label, entries) groups /\
    scan_groups start_dt end_dt teams groups history
      = Raise (ValueError (label_date label)).
Proof.
  revert history.
  induction groups as [|[label0 entries0] groups IH]; intros history.
  - intros (? & ? & ? & [] & _).
  - intros (label & entries & e & Hin & Hbad). cbn [scan_groups].
    destruct (Datetime.strptime_mdY (label_date label0)) as [d|e0] eqn:E0.
    + destruct Hin as [[= -> ->]|Hin]; [congruence|].
      cbn [bind].
      destruct (IH (if Datetime.leb start_dt d && Datetime.leb d end_dt
                    then history ++ group_rows teams d entries0
                    else history))
        as (l & es & Hl & Hr); [eauto|].
      exists l, es. split; [now right|exact Hr].
    + apply strptime_mdY_raise in E0 as ->.
      exists label0, entries0. split; [now left|reflexivity].
Qed.

(** With every label well formed the scan appends what the specification
    describes. *)
Lemma scan_groups_ok start_dt end_dt teams groups history :
  (forall label entries,
     In (label, entries) groups ->
     exists d, Datetime.strptime_mdY (label_date label) = Ok d) ->
  scan_groups start_dt end_dt teams groups history
    = Ok (history ++ spec_rows start_dt end_dt teams groups).
Proof.
  revert history.
  induction groups as [|[label entries] groups IH]; intros history Hwf.
  - simpl. now rewrite app_nil_r.
  - cbn [scan_groups spec_rows flat_map].
    destruct (Hwf label entries (or_introl eq_refl)) as [d ->]. cbn [bind].
    rewrite IH by (intros l es Hl; apply (Hwf l es); now right).
    unfold in_range, group_rows, spec_rows.
    destruct (Datetime.leb start_dt d && Datetime.leb d end_dt).
    + now rewrite <- app_assoc.
    + reflexivity.
Qed.

(** Conversely a scan that ends has parsed every label. *)
Lemma scan_groups_parsed start_dt end_dt teams groups history history' :
  scan_groups start_dt end_dt teams groups history = Ok history' ->
  forall label entries,
    In (label, entries) groups ->
    exists d, Datetime.strptime_mdY (label_date label) = Ok d.
Proof.
  revert history.
  induction groups as [|[label0 entries0] groups IH]; intros history Hok.
  - intros ? ? [].
  - cbn [scan_groups] in Hok.
    destruct (Datetime.strptime_mdY (label_date label0)) as [d|e] eqn:E;
      [|discriminate].
    cbn [bind] in Hok. intros label entries [[= <- <-]|Hin].
    + now exists d.
    + exact (IH _ Hok label entries Hin).
Qed.

Lemma in_spec_rows start_dt end_dt teams groups r :
  In r (spec_rows start_dt end_dt teams groups) <->
  exists label entries d e,
    In (label, entries) groups /\ In e entries /\
    Datetime.strptime_mdY (label_date label) = Ok d /\
    Datetime.leb start_dt d = true /\ Datetime.leb d end_dt = true /\
    In (team_name e) teams /\
    r = Row (team_name e) (Datetime.strftime_Ymd d) (ranking e).
Proof.
  unfold spec_rows. rewrite in_flat_map. split.
  - intros ([label entries] & Hin & Hr).
    destruct (Datetime.strptime_mdY (label_date label)) as [d|] eqn:E;
      [|contradiction].
    unfold in_range in Hr.
    destruct (Datetime.leb start_dt d) eqn:E1; [|contradiction].
    destruct (Datetime.leb d end_dt) eqn:E2; [|contradiction].
    simpl in Hr. apply in_map_iff in Hr as (e & <- & He).
    apply filter_In in He as [He Ht].
    exists label, entries, d, e. repeat split; auto.
    unfold str_in in Ht. apply existsb_exists in Ht as (t & Ht & Heq).
    apply String.eqb_eq in Heq. now subst.
  - intros (label & entries & d & e & Hin & He & Hd & H1 & H2 & Ht & ->).
    exists (label, entries). split; auto. rewrite Hd.
    unfold in_range. rewrite H1, H2. simpl.
    apply in_map_iff. exists e. split; auto.
    apply filter_In. split; auto.
    unfold str_in. apply existsb_exists. exists (team_name e).
    split; auto. apply String.eqb_refl.
Qed.

(** ** Sorting *)

Section SortFacts.
Context {A K : Type} (lt : K -> K -> bool) (key : A -> K).
Hypothesis lt_asym : forall a b, lt a b = true -> lt b a = false.
Hypothesis lt_negtrans :
  forall a b c, lt a b = false -> lt b c = false -> lt a c = false.

Lemma insert_perm x xs : Permutation (insert lt key x xs) (x :: xs).
Proof.
  induction xs as [|y ys IH]; simpl; auto.
  destruct (lt (key y) (key x)); auto.
  rewrite IH. apply perm_swap.
Qed.

Lemma sort_perm xs : Permutation (sort lt key xs) xs.
Proof.
  induction xs as [|x xs IH]; simpl; auto.
  rewrite insert_perm. now constructor.
Qed.

Lemma insert_sorted x xs :
  StronglySorted (key_le lt key) xs ->
  StronglySorted (key_le lt key) (insert lt key x xs).
Proof.
  induction 1 as [|y ys Hs IH Hall]; simpl.
  - repeat constructor.
  - destruct (lt (key y) (key x)) eqn:E.
    + constructor; auto.
      rewrite Forall_forall in *. intros z Hz.
      apply (Permutation_in _ (insert_perm x ys)) in Hz as [<-|Hz]; auto.
      unfold key_le. now apply lt_asym.
    + constructor; [now constructor|].
      constructor; [exact E|].
      rewrite Forall_forall in *. intros z Hz. unfold key_le in *.
      apply (lt_negtrans _ (key y)); auto.
Qed.

Lemma sort_sorted xs : StronglySorted (key_le lt key) (sort lt key xs).
Proof.
  induction xs as [|x xs IH]; simpl; [constructor|]. now apply insert_sorted.
Qed.

Lemma filter_tie_insert w x xs :
  filter (tie lt key w) (insert lt key x xs)
    = filter (tie lt key w) (x :: xs).
Proof.
  induction xs as [|y ys IH]; auto.
  cbn [insert]. destruct (lt (key y) (key x)) eqn:E; auto.
  cbn [filter] in *. rewrite IH.
  destruct (tie lt key w y) eqn:Ty, (tie lt key w x) eqn:Tx; auto.
  exfalso. unfold tie in Ty, Tx.
  apply andb_prop in Ty as [_ Ty], Tx as [Tx _].
  apply negb_true_iff in Ty, Tx.
  rewrite (lt_negtrans _ _ _ Ty Tx) in E. discriminate.
Qed.

(** Rows that tie keep the order they had. *)
Lemma sort_stable w xs :
  filter (tie lt key w) (sort lt key xs) = filter (tie lt key w) xs.
Proof.
  induction xs as [|x xs IH]; auto.
  cbn [sort fold_right]. fold (sort lt key xs).
  rewrite filter_tie_insert. cbn [filter]. now rewrite IH.
Qed.

End SortFacts.

(** The order on strings. *)

Lemma ascii_compare_lt_trans a b c :
  Ascii.compare a b = Lt -> Ascii.compare b c = Lt -> Ascii.compare a c = Lt.
Proof.
  unfold Ascii.compare. rewrite !N.compare_lt_iff. lia.
Qed.

Lemma str_compare_lt_trans a b c :
  String.compare a b = Lt -> String.compare b c = Lt ->
  String.compare a c = Lt.
Proof.
  revert b c. induction a as [|x a IH]; intros [|y b] [|z c]; simpl;
    try congruence.
  destruct (Ascii.compare x y) eqn:Exy; try discriminate;
    destruct (Ascii.compare y z) eqn:Eyz; try discriminate.
  - apply Ascii.compare_eq_iff in Exy, Eyz. subst.
    unfold Ascii.compare. rewrite N.compare_refl. apply IH.
  - apply Ascii.compare_eq_iff in Exy. subst. now rewrite Eyz.
  - apply Ascii.compare_eq_iff in Eyz. subst. now rewrite Exy.
  - now rewrite (ascii_compare_lt_trans _ _ _ Exy Eyz).
Qed.

Lemma str_compare_refl a : String.compare a a = Eq.
Proof.
  induction a as [|x a IH]; simpl; auto.
  unfold Ascii.compare. now rewrite N.compare_refl.
Qed.

Lemma str_compare_gt_lt a b :
  String.compare a b = Gt -> String.compare b a = Lt.
Proof. rewrite (String.compare_antisym b a). now intros ->. Qed.

Lemma str_compare_lt_gt a b :
  String.compare a b = Lt -> String.compare b a = Gt.
Proof. rewrite (String.compare_antisym b a). now intros ->. Qed.

(** [pair_lt] is the strict lexicographic order. *)
Lemma pair_lt_spec p q :
  pair_lt p q = true <->
  String.compare (fst p) (fst q) = Lt \/
  (fst p = fst q /\ String.compare (snd p) (snd q) = Lt).
Proof.
  unfold pair_lt, Py.str_lt, String.ltb.
  destruct (String.eqb_spec (fst p) (fst q)) as [E|E].
  - rewrite E, str_compare_refl.
    destruct (String.compare (snd p) (snd q)); intuition congruence.
  - destruct (String.compare (fst p) (fst q)); intuition congruence.
Qed.

Lemma pair_lt_asym p q : pair_lt p q = true -> pair_lt q p = false.
Proof.
  intros H. apply pair_lt_spec in H.
  apply not_true_is_false. intros H'. apply pair_lt_spec in H'.
  destruct H as [H|[E H]], H' as [H'|[E' H']];
    try (apply str_compare_lt_gt in H; congruence).
  - rewrite E', str_compare_refl in H. discriminate.
  - rewrite E, str_compare_refl in H'. discriminate.
Qed.

Lemma str_compare_ge_trans a b c :
  String.compare a b <> Lt -> String.compare b c <> Lt ->
  String.compare a c <> Lt.
Proof.
  intros Hab Hbc Hac.
  destruct (String.compare a b) eqn:E; try congruence.
  - apply String.compare_eq_iff in E. subst. contradiction.
  - apply str_compare_gt_lt in E.
    apply Hbc. now apply (str_compare_lt_trans b a c).
Qed.

Lemma pair_lt_negtrans p q r :
  pair_lt p q = false -> pair_lt q r = false -> pair_lt p r = false.
Proof.
  intros Hpq Hqr. apply not_true_is_false. intros Hpr.
  apply not_true_iff_false in Hpq, Hqr.
  rewrite pair_lt_spec in Hpq, Hqr, Hpr.
  assert (H1 : String.compare (fst p) (fst q) <> Lt) by tauto.
  assert (H2 : String.compare (fst q) (fst r) <> Lt) by tauto.
  destruct Hpr as [Hpr|[E Hpr]].
  - exact (str_compare_ge_trans _ _ _ H1 H2 Hpr).
  - destruct (String.compare (fst p) (fst q)) eqn:E1; try congruence.
    + apply String.compare_eq_iff in E1.
      assert (E2 : fst q = fst r) by congruence.
      assert (H3 : String.compare (snd p) (snd q) <> Lt) by tauto.
      assert (H4 : String.compare (snd q) (snd r) <> Lt) by tauto.
      exact (str_compare_ge_trans _ _ _ H3 H4 Hpr).
    + rewrite E in E1. apply str_compare_gt_lt in E1. congruence.
Qed.

Lemma pair_lt_false_row_le x y :
  pair_lt (sort_key y) (sort_key x) = false -> row_le x y.
Proof.
  intros H. apply not_true_iff_false in H. rewrite pair_lt_spec in H.
  unfold row_le, String.ltb, String.leb. simpl in H.
  destruct (String.compare (row_date x) (row_date y)) eqn:E.
  - right. apply String.compare_eq_iff in E. split; auto.
    destruct (String.compare (row_team x) (row_team y)) eqn:E'; auto.
    apply str_compare_gt_lt in E'. exfalso. apply H. right. auto.
  - now left.
  - apply str_compare_gt_lt in E. exfalso. apply H. now left.
Qed.

Lemma tie_has_key k x :
  negb (pair_lt k (sort_key x)) && negb (pair_lt (sort_key x) k)
    = has_key k x.
Proof.
  unfold has_key.
  destruct (String.eqb_spec (row_date x) (fst k)) as [E1|E1];
    [destruct (String.eqb_spec (row_team x) (snd k)) as [E2|E2]|]; simpl.
  - destruct k as [kd kt]. simpl in *. subst.
    unfold pair_lt, sort_key, Py.str_lt, String.ltb. simpl.
    now rewrite String.eqb_refl, str_compare_refl.
  - destruct (pair_lt k (sort_key x)) eqn:P1; auto. simpl.
    destruct (pair_lt (sort_key x) k) eqn:P2; auto. exfalso.
    apply not_true_iff_false in P1, P2. rewrite pair_lt_spec in P1, P2.
    simpl in *. rewrite E1, str_compare_refl in *.
    destruct (String.compare (snd k) (row_team x)) eqn:E.
    + apply String.compare_eq_iff in E. congruence.
    + apply P1. auto.
    + apply str_compare_gt_lt in E. apply P2. auto.
  - destruct (pair_lt k (sort_key x)) eqn:P1; auto. simpl.
    destruct (pair_lt (sort_key x) k) eqn:P2; auto. exfalso.
    apply not_true_iff_false in P1, P2. rewrite pair_lt_spec in P1, P2.
    simpl in *.
    destruct (String.compare (fst k) (row_date x)) eqn:E.
    + apply String.compare_eq_iff in E. congruence.
    + apply P1. auto.
    + apply str_compare_gt_lt in E. apply P2. auto.
Qed.

(** ** The rows of the answer *)

Lemma history_rows_ok rankings team_names start_date end_date start_dt end_dt :
  Datetime.strptime_Ymd start_date = Ok start_dt ->
  Datetime.strptime_Ymd end_date = Ok end_dt ->
  (forall label entries,
     In (label, entries) rankings ->
     exists d, Datetime.strptime_mdY (label_date label) = Ok d) ->
  history_rows rankings team_names start_date end_date
    = Ok (sort pair_lt sort_key
            (spec_rows start_dt end_dt (parse_team_list team_names) rankings)).
Proof.
  intros Hs He Hwf. unfold history_rows. rewrite Hs, He. cbn [bind].
  now rewrite scan_groups_ok.
Qed.

Lemma ranking_history_handler_miss
    namespace rankings now_get now_set team_names start_date end_date c :
  cache_miss now_get
    (cache_key_generator [namespace; team_names; start_date; end_date]) c ->
  ranking_history_handler namespace rankings now_get now_set
                          team_names start_date end_date c =
  let c1 := snd (get_from_cache now_get
             (cache_key_generator [namespace; team_names; start_date; end_date])
             c) in
  match history_rows rankings team_names start_date end_date with
  | Ok rows =>
      (Ok200 (history_json rows team_names start_date end_date),
       set_cache now_set
         (cache_key_generator [namespace; team_names; start_date; end_date])
         (history_json rows team_names start_date end_date) c1)
  | Raise e => (Err500 e, c1)
  end.
Proof.
  intros Hmiss. unfold ranking_history_handler.
  rewrite cached_miss by assumption. unfold ranking_history.
  destruct (history_rows rankings team_names start_date end_date); reflexivity.
Qed.

(** C2, counterexample: a label that is no date in front of the two groups
    of the example; the request for team A fails with the 500 response
    instead of answering with the row of the first good group. *)
Lemma malformed_label_not_skipped :
  history_rows two_groups "A" "2023-01-01" "2023-01-07"
    = Ok [Row "A" "2023-01-05" (JInt 1)] /\
  get_team_ranking_history bad_label_groups 0 0
                           "A" "2023-01-01" "2023-01-07" []
    = (Err500 (ValueError "oops"), []).
Proof. split; vm_compute; reflexivity. Qed.

(** C2 (as amended): with well-formed bounds, if some date-group label of
    the dataset does not parse, no group is skipped: the computation raises
    the [ValueError] of a malformed label, and on a cache miss the request
    ends in the 500 response that carries it and stores nothing. *)
Theorem malformed_label_fails
    namespace rankings now_get now_set team_names start_date end_date c
    start_dt end_dt :
  Datetime.strptime_Ymd start_date = Ok start_dt ->
  Datetime.strptime_Ymd end_date = Ok end_dt ->
  (exists label entries e,
     In (label, entries) rankings /\
     Datetime.strptime_mdY (label_date label) = Raise e) ->
  exists label entries,
    In (label, entries) rankings /\
    history_rows rankings team_names start_date end_date
      = Raise (ValueError (label_date label)) /\
    (cache_miss now_get
       (cache_key_generator [namespace; team_names; start_date; end_date]) c ->
     ranking_history_handler namespace rankings now_get now_set
                             team_names start_date end_date c
       = (Err500 (ValueError (label_date label)),
          snd (get_from_cache now_get
                 (cache_key_generator
                    [namespace; team_names; start_date; end_date]) c))).
Proof.
  intros Hs He Hbad.
  destruct (scan_groups_malformed start_dt end_dt
              (parse_team_list team_names) rankings [] Hbad)
    as (label & entries & Hin & Hscan).
  assert (Hrows : history_rows rankings team_names start_date end_date
                  = Raise (ValueError (label_date label))).
  { unfold history_rows. rewrite Hs, He. cbn [bind]. now rewrite Hscan. }
  exists label, entries. repeat split; auto.
  intros Hmiss. rewrite ranking_history_handler_miss by assumption.
  now rewrite Hrows.
Qed.

Lemma malformed_label_fails_witness :
  exists label entries,
    In (label, entries) bad_label_groups /\
    history_rows bad_label_groups "A" "2023-01-01" "2023-01-07"
      = Raise (ValueError (label_date label)) /\
    get_team_ranking_history bad_label_groups 0 0
                             "A" "2023-01-01" "2023-01-07" []
      = (Err500 (ValueError (label_date label)), []).
Proof.
  destruct (malformed_label_fails "rankings" bad_label_groups 0 0
              "A" "2023-01-01" "2023-01-07" []
              (Datetime.Dt 2023 1 1) (Datetime.Dt 2023 1 7))
    as (label & entries & Hin & Hrows & Hresp).
  - reflexivity.
  - reflexivity.
  - exists "oops", [], (ValueError "oops"). split; [now left|reflexivity].
  - exists label, entries. split; [exact Hin|]. split; [exact Hrows|].
    exact (Hresp (cache_miss_empty _ _)).
Defined.

(** C7: with well-formed bounds and every label of the dataset well formed,
    the rows are, up to their order, the entries of the groups whose date
    (the label up to its hyphen, read as month/day/year) lies between the
    bounds, both included, and whose team is requested; each row carries
    the team name, the date as year-month-day and the ranking.  On a cache
    miss the request answers 200 with these rows and their count, and
    stores the answer. *)
Theorem history_rows_filter
    namespace rankings now_get now_set team_names start_date end_date c
    start_dt end_dt :
  Datetime.strptime_Ymd start_date = Ok start_dt ->
  Datetime.strptime_Ymd end_date = Ok end_dt ->
  (forall label entries,
     In (label, entries) rankings ->
     exists d, Datetime.strptime_mdY (label_date label) = Ok d) ->
  exists rows,
    history_rows rankings team_names start_date end_date = Ok rows /\
    Permutation rows
      (spec_rows start_dt end_dt (parse_team_list team_names) rankings) /\
    (forall r,
       In r rows <->
       exists label entries d e,
         In (label, entries) rankings /\ In e entries /\
         Datetime.strptime_mdY (label_date label) = Ok d /\
         Datetime.leb start_dt d = true /\ Datetime.leb d end_dt = true /\
         In (team_name e) (parse_team_list team_names) /\
         r = Row (team_name e) (Datetime.strftime_Ymd d) (ranking e)) /\
    (cache_miss now_get
       (cache_key_generator [namespace; team_names; start_date; end_date]) c ->
     ranking_history_handler namespace rankings now_get now_set
                             team_names start_date end_date c
       = (Ok200 (history_json rows team_names start_date end_date),
          set_cache now_set
            (cache_key_generator [namespace; team_names; start_date; end_date])
            (history_json rows team_names start_date end_date)
            (snd (get_from_cache now_get
                    (cache_key_generator
                       [namespace; team_names; start_date; end_date]) c)))).
Proof.
  intros Hs He Hwf.
  pose proof (history_rows_ok rankings team_names _ _ _ _ Hs He Hwf) as Hrows.
  eexists. split; [exact Hrows|]. repeat split.
  - apply sort_perm.
  - intros Hin. apply in_spec_rows.
    eapply Permutation_in; [apply (sort_perm pair_lt sort_key)|exact Hin].
  - intros Hex. apply in_spec_rows in Hex.
    eapply Permutation_in;
      [apply Permutation_sym, (sort_perm pair_lt sort_key)|exact Hex].
  - intros Hmiss. rewrite ranking_history_handler_miss by assumption.
    now rewrite Hrows.
Qed.

(** The example of the specification: team A between 2023-01-01 and
    2023-01-07 has the one row of 2023-01-05. *)
Lemma history_rows_filter_witness :
  exists rows,
    history_rows two_groups "A" "2023-01-01" "2023-01-07" = Ok rows /\
    Permutation rows
      (spec_rows (Datetime.Dt 2023 1 1) (Datetime.Dt 2023 1 7)
                 (parse_team_list "A") two_groups) /\
    rows = [Row "A" "2023-01-05" (JInt 1)].
Proof.
  destruct (history_rows_filter "rankings" two_groups 0 0
              "A" "2023-01-01" "2023-01-07" []
              (Datetime.Dt 2023 1 1) (Datetime.Dt 2023 1 7))
    as (rows & Hrows & Hperm & _).
  - reflexivity.
  - reflexivity.
  - intros label entries [[= <- <-]|[[= <- <-]|[]]]; eexists; reflexivity.
  - exists rows. repeat split; auto.
    vm_compute in Hrows. now injection Hrows as <-.
Defined.

(** C9, counterexample: an empty team-name parameter, well-formed bounds, no
    entry at all in the dataset, and the request fails with the 500
    response, because a label of the dataset is no date. *)
Lemma empty_team_names_may_fail :
  (forall label entries e,
     In (label, entries) [("oops", [])] -> In e entries ->
     team_name e <> "") /\
  Datetime.strptime_Ymd "2023-01-01" = Ok (Datetime.Dt 2023 1 1) /\
  Datetime.strptime_Ymd "2023-01-07" = Ok (Datetime.Dt 2023 1 7) /\
  get_team_ranking_history [("oops", [])] 0 0 "" "2023-01-01" "2023-01-07" []
    = (Err500 (ValueError "oops"), []).
Proof.
  split; [|vm_compute; auto].
  intros label entries e [[= <- <-]|[]] [].
Qed.

(** C9 (as amended): for an empty team-name parameter and well-formed
    bounds, if every date-group label of the dataset is well formed and no
    entry has an empty team name, the query has no rows, and on a cache miss
    the request answers 200 with no rows and count 0, not an error. *)
Theorem empty_team_names_no_rows
    namespace rankings now_get now_set start_date end_date c start_dt end_dt :
  Datetime.strptime_Ymd start_date = Ok start_dt ->
  Datetime.strptime_Ymd end_date = Ok end_dt ->
  (forall label entries,
     In (label, entries) rankings ->
     exists d, Datetime.strptime_mdY (label_date label) = Ok d) ->
  (forall label entries e,
     In (label, entries) rankings -> In e entries -> team_name e <> "") ->
  history_rows rankings "" start_date end_date = Ok [] /\
  history_json [] "" start_date end_date
    = JDict [("data", JList []); ("count", JInt 0);
             ("teams", JList [JStr ""]);
             ("date_range", JDict [("start", JStr start_date);
                                   ("end", JStr end_date)])] /\
  (cache_miss now_get
     (cache_key_generator [namespace; ""; start_date; end_date]) c ->
   ranking_history_handler namespace rankings now_get now_set
                           "" start_date end_date c
     = (Ok200 (history_json [] "" start_date end_date),
        set_cache now_set
          (cache_key_generator [namespace; ""; start_date; end_date])
          (history_json [] "" start_date end_date)
          (snd (get_from_cache now_get
                  (cache_key_generator [namespace; ""; start_date; end_date])
                  c)))).
Proof.
  intros Hs He Hwf Hnames.
  assert (Hrows : history_rows rankings "" start_date end_date = Ok []).
  { rewrite (history_rows_ok _ _ _ _ _ _ Hs He Hwf).
    assert (Hnil : spec_rows start_dt end_dt (parse_team_list "") rankings
                   = []).
    { destruct (spec_rows _ _ _ _) as [|r rs] eqn:E; auto.
      assert (Hr : In r (spec_rows start_dt end_dt (parse_team_list "")
                                   rankings)) by (rewrite E; now left).
      apply in_spec_rows in Hr
        as (label & entries & d & e & Hin & Hine & _ & _ & _ & Ht & _).
      exfalso. apply (Hnames label entries e Hin Hine).
      simpl in Ht. destruct Ht as [Ht|[]]. now rewrite <- Ht. }
    now rewrite Hnil. }
  repeat split; auto.
  intros Hmiss. rewrite ranking_history_handler_miss by assumption.
  now rewrite Hrows.
Qed.

Lemma empty_team_names_no_rows_witness :
  history_rows two_groups "" "2023-01-01" "2023-01-07" = Ok [] /\
  get_team_ranking_history two_groups 0 0 "" "2023-01-01" "2023-01-07" []
    = (Ok200 (history_json [] "" "2023-01-01" "2023-01-07"),
       set_cache 0
         (cache_key_generator ["rankings"; ""; "2023-01-01"; "2023-01-07"])
         (history_json [] "" "2023-01-01" "2023-01-07") []).
Proof.
  destruct (empty_team_names_no_rows "rankings" two_groups 0 0
              "2023-01-01" "2023-01-07" []
              (Datetime.Dt 2023 1 1) (Datetime.Dt 2023 1 7))
    as (Hrows & _ & Hresp).
  - reflexivity.
  - reflexivity.
  - intros label entries [[= <- <-]|[[= <- <-]|[]]]; eexists; reflexivity.
  - intros label entries e [[= <- <-]|[[= <- <-]|[]]] [<-|[]]; discriminate.
  - split; [exact Hrows|]. apply Hresp. apply cache_miss_empty.
Defined.

(** ** Dates as strings *)

Lemma digit_char_ext a b :
  a mod 10 = b mod 10 -> Datetime.digit_char a = Datetime.digit_char b.
Proof. unfold Datetime.digit_char. now intros ->. Qed.

Lemma digit_char_compare a b :
  Ascii.compare (Datetime.digit_char a) (Datetime.digit_char b)
    = (a mod 10 ?= b mod 10).
Proof.
  unfold Datetime.digit_char.
  pose proof (Z.mod_pos_bound a 10 eq_refl) as Ha.
  pose proof (Z.mod_pos_bound b 10 eq_refl) as Hb.
  set (x := a mod 10) in *. set (y := b mod 10) in *. clearbody x y.
  assert (Hx : x = 0 \/ x = 1 \/ x = 2 \/ x = 3 \/ x = 4 \/ x = 5 \/ x = 6
               \/ x = 7 \/ x = 8 \/ x = 9) by lia.
  assert (Hy : y = 0 \/ y = 1 \/ y = 2 \/ y = 3 \/ y = 4 \/ y = 5 \/ y = 6
               \/ y = 7 \/ y = 8 \/ y = 9) by lia.
  repeat (destruct Hx as [Hx|Hx]); subst x;
    repeat (destruct Hy as [Hy|Hy]); subst y; reflexivity.
Qed.

Lemma compare_pad2 x y s t :
  0 <= x < 100 -> 0 <= y < 100 ->
  String.compare (Datetime.pad2 x ++ s) (Datetime.pad2 y ++ t)
    = match x ?= y with Eq => String.compare s t | c => c end.
Proof.
  intros Hx Hy. unfold Datetime.pad2. cbn [String.append String.compare].
  rewrite !digit_char_compare.
  destruct (Z.compare_spec ((x / 10) mod 10) ((y / 10) mod 10)) as [E1|E1|E1];
    destruct (Z.compare_spec (x mod 10) (y mod 10)) as [E2|E2|E2];
    destruct (Z.compare_spec x y) as [E|E|E];
    try reflexivity; exfalso; revert E1 E2 E;
    Z.div_mod_to_equations; lia.
Qed.

Lemma pad4_pad2 y :
  Datetime.pad4 y
    = (Datetime.pad2 (y / 100) ++ Datetime.pad2 (y mod 100))%string.
Proof.
  unfold Datetime.pad4, Datetime.pad2. cbn [String.append].
  rewrite (digit_char_ext (y / 1000) (y / 100 / 10)),
          (digit_char_ext (y / 10) (y mod 100 / 10)),
          (digit_char_ext y (y mod 100)); auto;
    Z.div_mod_to_equations; lia.
Qed.

Lemma valid_date_bounds d :
  valid_date d ->
  1 <= Datetime.year d <= 9999 /\ 1 <= Datetime.month d <= 12 /\
  1 <= Datetime.day d <= 31.
Proof.
  unfold valid_date, Datetime.make, Datetime.days_in_month.
  destruct (_ && _) eqn:E; [|discriminate]. intros _.
  repeat (apply andb_prop in E as [E ?]).
  assert (Datetime.day d <= 31); [|lia].
  destruct (Datetime.month d =? 2); [destruct (Datetime.is_leap _)|];
    [lia|lia|].
  destruct (_ || _); lia.
Qed.

(** The strings that [strftime] makes order as the dates do. *)
Lemma strftime_compare a b :
  valid_date a -> valid_date b ->
  String.compare (Datetime.strftime_Ymd a) (Datetime.strftime_Ymd b)
    = match Datetime.year a ?= Datetime.year b with
      | Eq => match Datetime.month a ?= Datetime.month b with
              | Eq => Datetime.day a ?= Datetime.day b
              | c => c
              end
      | c => c
      end.
Proof.
  intros Ha Hb.
  apply valid_date_bounds in Ha as (Hya & Hma & Hda).
  apply valid_date_bounds in Hb as (Hyb & Hmb & Hdb).
  destruct a as [ya ma da], b as [yb mb db].
  cbn [Datetime.year Datetime.month Datetime.day] in *.
  unfold Datetime.strftime_Ymd. cbn [Datetime.year Datetime.month Datetime.day].
  rewrite !pad4_pad2.
  assert (Hassoc : forall u v w,
            ((Datetime.pad2 u ++ Datetime.pad2 v) ++ w)%string
            = (Datetime.pad2 u ++ (Datetime.pad2 v ++ w))%string)
    by reflexivity.
  rewrite !Hassoc.
  rewrite compare_pad2 by (Z.div_mod_to_equations; lia).
  rewrite compare_pad2 by (Z.div_mod_to_equations; lia).
  cbn [String.append String.compare].
  change (Ascii.compare "-" "-") with Eq. cbv iota.
  rewrite compare_pad2 by lia.
  cbn [String.append String.compare].
  change (Ascii.compare "-" "-") with Eq. cbv iota.
  rewrite <- (append_empty_r (Datetime.pad2 da)),
          <- (append_empty_r (Datetime.pad2 db)).
  rewrite compare_pad2 by lia. cbn [String.compare].
  destruct (Z.compare_spec (ya / 100) (yb / 100)) as [E1|E1|E1];
    destruct (Z.compare_spec (ya mod 100) (yb mod 100)) as [E2|E2|E2];
    destruct (Z.compare_spec ya yb) as [E|E|E];
    try reflexivity; try (destruct (ma ?= mb), (da ?= db); reflexivity);
    exfalso; revert E1 E2 E; Z.div_mod_to_equations; lia.
Qed.

Lemma strftime_leb a b :
  valid_date a -> valid_date b ->
  String.leb (Datetime.strftime_Ymd a) (Datetime.strftime_Ymd b)
    = Datetime.leb a b.
Proof.
  intros Ha Hb. unfold String.leb, Datetime.leb.
  rewrite (strftime_compare a b Ha Hb).
  destruct (Z.compare_spec (Datetime.year a) (Datetime.year b)) as [E|E|E].
  - rewrite (proj2 (Z.eqb_eq _ _) E).
    destruct (Z.compare_spec (Datetime.month a) (Datetime.month b))
      as [E'|E'|E'].
    + rewrite (proj2 (Z.eqb_eq _ _) E').
      destruct (Z.compare_spec (Datetime.day a) (Datetime.day b));
        symmetry; [apply Z.leb_le|apply Z.leb_le|apply Z.leb_gt]; lia.
    + rewrite (proj2 (Z.eqb_neq _ _)) by lia. symmetry. apply Z.ltb_lt. lia.
    + rewrite (proj2 (Z.eqb_neq _ _)) by lia. symmetry. apply Z.ltb_ge. lia.
  - rewrite (proj2 (Z.eqb_neq _ _)) by lia. symmetry. apply Z.ltb_lt. lia.
  - rewrite (proj2 (Z.eqb_neq _ _)) by lia. symmetry. apply Z.ltb_ge. lia.
Qed.

Lemma strptime_mdY_valid data d :
  Datetime.strptime_mdY data = Ok d -> valid_date d.
Proof.
  unfold Datetime.strptime_mdY, Datetime.finish.
  destruct (flat_map _ _) as [|[[[y m] dd] [|? ?]] ?]; try discriminate.
  unfold valid_date. destruct (Datetime.make y m dd) as [d'|] eqn:E;
    [|discriminate].
  simpl. intros [= <-]. unfold Datetime.make in E |- *.
  destruct (_ && _) eqn:E' in E; [|discriminate].
  injection E as <-. simpl. now rewrite E'.
Qed.

(** ** The order of the answer *)

Lemma history_rows_inv rankings team_names start_date end_date rows :
  history_rows rankings team_names start_date end_date = Ok rows ->
  exists start_dt end_dt history,
    Datetime.strptime_Ymd start_date = Ok start_dt /\
    Datetime.strptime_Ymd end_date = Ok end_dt /\
    scan_groups start_dt end_dt (parse_team_list team_names) rankings []
      = Ok history /\
    rows = sort pair_lt sort_key history.
Proof.
  unfold history_rows.
  destruct (Datetime.strptime_Ymd start_date) as [start_dt|]; [|discriminate].
  destruct (Datetime.strptime_Ymd end_date) as [end_dt|]; [|discriminate].
  cbn [bind].
  destruct (scan_groups _ _ _ _ _) as [history|] eqn:Hscan; [|discriminate].
  cbn [bind]. intros [= <-]. exists start_dt, end_dt, history.
  repeat split; auto.
Qed.

Lemma pair_lt_antisym p q :
  pair_lt p q = false -> pair_lt q p = false -> p = q.
Proof.
  intros H1 H2.
  pose proof (tie_has_key p (Row (snd q) (fst q) JNull)) as H.
  unfold sort_key, has_key in H. cbn [row_date row_team] in H.
  destruct q as [qd qt], p as [pd pt]. cbn [fst snd] in *.
  rewrite H1, H2 in H. simpl in H. symmetry in H.
  apply andb_prop in H as [Hd Ht].
  apply String.eqb_eq in Hd, Ht. congruence.
Qed.

Section SortedUnique.
Context {K : Type} (lt : K -> K -> bool).
Hypothesis lt_antisym : forall a b, lt a b = false -> lt b a = false -> a = b.


(** A sorted list is the only sorted arrangement of its elements. *)
Lemma sorted_perm_eq (l1 l2 : list K) :
  StronglySorted (key_le lt (fun k => k)) l1 ->
  StronglySorted (key_le lt (fun k => k)) l2 ->
  Permutation l1 l2 ->
  l1 = l2.
Proof.
  intros H1. revert l2.
  induction H1 as [|a l1 Hs1 IH Hall1]; intros l2 H2 Hperm.
  - now apply Permutation_nil in Hperm.
  - destruct H2 as [|b l2 Hs2 Hall2].
    + apply Permutation_sym, Permutation_nil in Hperm. discriminate.
    + assert (a = b) as ->.
      { rewrite Forall_forall in Hall1, Hall2.
        assert (Ha : In a (b :: l2))
          by (eapply Permutation_in; [exact Hperm|now left]).
        assert (Hb : In b (a :: l1))
          by (eapply Permutation_in;
              [apply Permutation_sym; exact Hperm|now left]).
        destruct Ha as [<-|Ha]; auto. destruct Hb as [<-|Hb]; auto.
        apply lt_antisym; [apply (Hall2 a Ha)|apply (Hall1 b Hb)]. }
      f_equal. apply IH; auto. now apply Permutation_cons_inv in Hperm.
Qed.

Lemma sorted_map_key {A : Type} (key : A -> K) (l : list A) :
  StronglySorted (fun x y => lt (key y) (key x) = false) l ->
  StronglySorted (key_le lt (fun k => k)) (map key l).
Proof.
  induction 1 as [|x l Hs IH Hall]; simpl; constructor; auto.
  rewrite Forall_forall in *. intros k Hk.
  apply in_map_iff in Hk as (y & <- & Hy). now apply Hall.
Qed.

End SortedUnique.

Lemma sort_rows_sorted history :
  StronglySorted row_le (sort pair_lt sort_key history).
Proof.
  pose proof (sort_sorted pair_lt sort_key pair_lt_asym pair_lt_negtrans
                          history) as H.
  induction H as [|x l Hs IH Hall]; constructor; auto.
  rewrite Forall_forall in *. intros y Hy.
  apply pair_lt_false_row_le. now apply Hall.
Qed.

Lemma sort_rows_stable k history :
  filter (has_key k) (sort pair_lt sort_key history)
    = filter (has_key k) history.
Proof.
  destruct k as [kd kt].
  rewrite <- !(filter_ext _ _ (tie_has_key (kd, kt))).
  exact (sort_stable pair_lt sort_key pair_lt_negtrans
                     (Row kt kd JNull) history).
Qed.

Lemma sort_rows_keys_unique h1 h2 :
  Permutation h1 h2 ->
  map sort_key (sort pair_lt sort_key h1)
    = map sort_key (sort pair_lt sort_key h2).
Proof.
  intros Hperm. apply (sorted_perm_eq pair_lt pair_lt_antisym).
  - apply sorted_map_key, sort_sorted;
      [apply pair_lt_asym|apply pair_lt_negtrans].
  - apply sorted_map_key, sort_sorted;
      [apply pair_lt_asym|apply pair_lt_negtrans].
  - apply Permutation_map.
    rewrite (sort_perm pair_lt sort_key h1), (sort_perm pair_lt sort_key h2).
    exact Hperm.
Qed.

(** C8: the rows of an answer are sorted by date and then by team name,
    both as strings compare, and the date strings compare as the dates do.
    The sort is stable: the rows under one (date, team) key are in the order
    in which the scan appended them.  Going through the date groups in
    another order gives the same sequence of (date, team) keys, and the
    same rows up to the order among ties. *)
Theorem history_rows_sorted_stable
    rankings team_names start_date end_date rows :
  history_rows rankings team_names start_date end_date = Ok rows ->
  exists start_dt end_dt history,
    Datetime.strptime_Ymd start_date = Ok start_dt /\
    Datetime.strptime_Ymd end_date = Ok end_dt /\
    scan_groups start_dt end_dt (parse_team_list team_names) rankings []
      = Ok history /\
    Permutation rows history /\
    StronglySorted row_le rows /\
    (forall k, filter (has_key k) rows = filter (has_key k) history) /\
    (forall r, In r rows ->
       exists d, valid_date d /\ row_date r = Datetime.strftime_Ymd d) /\
    (forall d1 d2, valid_date d1 -> valid_date d2 ->
       String.leb (Datetime.strftime_Ymd d1) (Datetime.strftime_Ymd d2)
         = Datetime.leb d1 d2) /\
    (forall rankings',
       Permutation rankings rankings' ->
       exists rows',
         history_rows rankings' team_names start_date end_date = Ok rows' /\
         Permutation rows' rows /\
         map sort_key rows' = map sort_key rows).
Proof.
  intros Hrows.
  destruct (history_rows_inv _ _ _ _ _ Hrows)
    as (start_dt & end_dt & history & Hs & He & Hscan & ->).
  exists start_dt, end_dt, history.
  pose proof (scan_groups_parsed _ _ _ _ _ _ Hscan) as Hwf.
  assert (Hhist : history
                  = spec_rows start_dt end_dt (parse_team_list team_names)
                              rankings).
  { rewrite scan_groups_ok in Hscan by exact Hwf. now injection Hscan. }
  repeat (split; [assumption|]). split; [apply sort_perm|].
  split; [apply sort_rows_sorted|]. split; [|split; [|split]].
  - intros k. apply sort_rows_stable.
  - intros r Hr.
    apply (Permutation_in _ (sort_perm pair_lt sort_key history)) in Hr.
    rewrite Hhist in Hr. apply in_spec_rows in Hr
      as (label & entries & d & e & _ & _ & Hd & _ & _ & _ & ->).
    exists d. split; [|reflexivity]. now apply strptime_mdY_valid in Hd.
  - apply strftime_leb.
  - intros rankings' Hperm.
    assert (Hwf' : forall label entries,
               In (label, entries) rankings' ->
               exists d, Datetime.strptime_mdY (label_date label) = Ok d).
    { intros label entries Hin. apply (Hwf label entries).
      eapply Permutation_in; [apply Permutation_sym; exact Hperm|exact Hin]. }
    eexists. split; [apply (history_rows_ok _ _ _ _ _ _ Hs He Hwf')|].
    assert (Hp : Permutation
                   (spec_rows start_dt end_dt (parse_team_list team_names)
                              rankings') history).
    { rewrite Hhist. unfold spec_rows.
      apply Permutation_flat_map, Permutation_sym, Hperm. }
    split.
    + rewrite !(sort_perm pair_lt sort_key). exact Hp.
    + now apply sort_rows_keys_unique.
Qed.

(** The groups of the example in the other order, both teams requested:
    the row of 2023-01-05 comes before the row of 2023-01-10. *)
Lemma history_rows_sorted_stable_witness :
  StronglySorted row_le [Row "A" "2023-01-05" (JInt 1);
                         Row "B" "2023-01-10" (JInt 2)] /\
  exists rows',
    history_rows two_groups "B, A" "2023-01-01" "2023-12-31" = Ok rows' /\
    map sort_key rows' = [("2023-01-05", "A"); ("2023-01-10", "B")].
Proof.
  destruct (history_rows_sorted_stable
              (rev two_groups) "B, A" "2023-01-01" "2023-12-31"
              [Row "A" "2023-01-05" (JInt 1); Row "B" "2023-01-10" (JInt 2)])
    as (start_dt & end_dt & history
        & _ & _ & _ & _ & Hsorted & _ & _ & _ & Hany).
  - vm_compute. reflexivity.
  - split; [exact Hsorted|].
    destruct (Hany two_groups) as (rows' & Hrows' & _ & Hkeys).
    + apply Permutation_sym, Permutation_rev.
    + exists rows'. split; [exact Hrows'|exact Hkeys].
Defined.

(** ** The application as a whole *)

Lemma some_inj {A : Type} (x y : A) : Some x = Some y -> x = y.
Proof. now intros [= ->]. Qed.

Lemma some_not_none {A : Type} (x : A) : Some x = None -> False.
Proof. discriminate. Qed.

Lemma serve_keyed b now_get now_set req c key :
  request_key req = Some key ->
  exists compute,
    request_compute b req = Some compute /\
    serve b now_get now_set req c = cached now_get now_set key compute c.
Proof.
  destruct req; unfold request_key; intros Hkey;
    (apply some_inj in Hkey || discriminate Hkey); subst key;
    eexists; (split; [reflexivity|]);
    unfold serve, get_matrix, get_WWP_matrix, matrix_handler,
      get_matches, get_WWP_matches, matches_handler,
      get_team_ranking_history, get_WWP_team_ranking_history,
      ranking_history_handler;
    reflexivity.
Qed.

(** What a route computes is never falsy. *)
Lemma matches_lookup_truthy docs row_rank col_rank result_data :
  matches_lookup docs row_rank col_rank = Ok result_data ->
  truthy result_data = true.
Proof.
  unfold matches_lookup.
  destruct (Py.int row_rank); [|discriminate].
  destruct (Py.int col_rank); [|discriminate].
  destruct docs as [|doc rest]; [discriminate|]. simpl.
  destruct (Dict.get _ _); [|discriminate]. simpl.
  destruct (py_len _); [|discriminate]. simpl.
  intros [= <-]. reflexivity.
Qed.

Lemma ranking_history_truthy groups team_names start_date end_date
    result_data :
  ranking_history groups team_names start_date end_date = Ok result_data ->
  truthy result_data = true.
Proof.
  unfold ranking_history. destruct (history_rows _ _ _ _); [|discriminate].
  simpl. intros [= <-]. reflexivity.
Qed.

Lemma request_compute_truthy b req compute result_data :
  request_compute b req = Some compute ->
  compute = Ok result_data -> truthy result_data = true.
Proof.
  destruct req as [|r cr|tn sd ed| |r cr|tn sd ed| | |]; simpl;
    intros [= <-]; try (intros [= <-]; reflexivity).
  - apply matches_lookup_truthy.
  - apply ranking_history_truthy.
  - apply matches_lookup_truthy.
  - apply ranking_history_truthy.
Qed.

(** The three ways the frame of a handler ends. *)
Lemma cached_cases now_get now_set key compute c :
  let c1 := snd (get_from_cache now_get key c) in
  (exists data,
     fst (get_from_cache now_get key c) = Some data /\
     truthy data = true /\
     cached now_get now_set key compute c = (Ok200 data, c1)) \/
  (cache_miss now_get key c /\
   exists result_data,
     compute = Ok result_data /\
     cached now_get now_set key compute c
       = (Ok200 result_data, set_cache now_set key result_data c1)) \/
  (cache_miss now_get key c /\
   exists e,
     compute = Raise e /\
     cached now_get now_set key compute c = (Err500 e, c1)).
Proof.
  intros c1. unfold cached, cache_miss. subst c1.
  destruct (get_from_cache now_get key c) as [[data|] c1]; simpl.
  - destruct (truthy data) eqn:T.
    + left. eauto.
    + right. destruct compute as [r|e]; [left|right]; eauto.
  - right. destruct compute as [r|e]; [left|right]; eauto.
Qed.

Lemma all_truthy_del k (c : cache json) :
  Dict.wf c -> all_truthy c -> all_truthy (Dict.del k c).
Proof.
  intros Hwf H k' data ts Hg. destruct (String.eqb_spec k k') as [->|Hne].
  - rewrite DictFacts.get_del_same in Hg by assumption. discriminate.
  - rewrite DictFacts.get_del_other in Hg by assumption. eauto.
Qed.

Lemma all_truthy_get_from_cache now key (c : cache json) :
  Dict.wf c -> all_truthy c -> all_truthy (snd (get_from_cache now key c)).
Proof.
  intros Hwf H. unfold get_from_cache.
  destruct (Dict.get key c) as [[d ts]|]; auto.
  destruct (now - ts <? CACHE_TTL); simpl; auto. now apply all_truthy_del.
Qed.

Lemma all_truthy_set_cache now key data (c : cache json) :
  Dict.wf c -> all_truthy c -> truthy data = true ->
  all_truthy (set_cache now key data c).
Proof.
  intros Hwf H Hd. unfold set_cache.
  assert (Hc' : all_truthy
                  (if CACHE_MAX_SIZE <=? Dict.len c
                   then match py_min (stored_at c) (Dict.keys c) with
                        | Some oldest_key => Dict.del oldest_key c
                        | None => c
                        end
                   else c)).
  { destruct (CACHE_MAX_SIZE <=? Dict.len c); auto.
    destruct (py_min _ _); auto. now apply all_truthy_del. }
  intros k' data' ts' Hg. destruct (String.eqb_spec key k') as [->|Hne].
  - rewrite DictFacts.get_set_same in Hg. now injection Hg as <- <-.
  - rewrite DictFacts.get_set_other in Hg by assumption. eauto.
Qed.

(** What every request keeps. *)
Lemma serve_inv b now_get now_set req c :
  cache_inv c /\ all_truthy c ->
  cache_inv (snd (serve b now_get now_set req c)) /\
  all_truthy (snd (serve b now_get now_set req c)).
Proof.
  intros [Hinv Htruthy].
  destruct (request_key req) as [key|] eqn:Hkey.
  - destruct (serve_keyed b now_get now_set req c key Hkey)
      as (compute & Hcompute & ->).
    pose proof (cache_inv_step c (OpGet now_get key) Hinv) as Hinv1.
    pose proof (all_truthy_get_from_cache now_get key c (proj1 Hinv) Htruthy)
      as Htruthy1.
    cbn [apply_op] in Hinv1.
    destruct (cached_cases now_get now_set key compute c)
      as [(data & _ & _ & ->)|[(_ & r & Hr & ->)|(_ & e & _ & ->)]];
      cbn [snd]; auto.
    split.
    + apply (cache_inv_step _ (OpSet now_set key r) Hinv1).
    + apply all_truthy_set_cache; [apply Hinv1|assumption|].
      eapply request_compute_truthy; eauto.
  - destruct req; unfold request_key in Hkey;
      try (apply some_not_none in Hkey; contradiction);
      cbn [serve clear_cache_endpoint clear_cache snd]; auto.
    split; [apply cache_inv_empty|]. intros k d ts. discriminate.
Qed.

Lemma serve_all_inv arrivals c :
  cache_inv c /\ all_truthy c ->
  cache_inv (serve_all arrivals c) /\ all_truthy (serve_all arrivals c).
Proof.
  revert c. unfold serve_all.
  induction arrivals as [|[[[b t1] t2] req] arrivals IH]; intros c H; auto.
  cbn [fold_left]. apply IH. now apply serve_inv.
Qed.

Lemma serve_all_reachable arrivals :
  cache_inv (serve_all arrivals []) /\ all_truthy (serve_all arrivals []).
Proof.
  apply serve_all_inv. split; [apply cache_inv_empty|].
  intros k d ts. discriminate.
Qed.

(** X1: the application keeps the cache within bounds: after any sequence of
    requests from the empty cache of start-up, on any state of the
    collections and at any clock readings, the cache holds each key once, at
    most [CACHE_MAX_SIZE] entries, and only values that pass
    [if cached_data:]. *)
Theorem serve_all_bounded arrivals :
  Dict.wf (serve_all arrivals []) /\
  0 <= Dict.len (serve_all arrivals []) <= CACHE_MAX_SIZE /\
  all_truthy (serve_all arrivals []).
Proof.
  destruct (serve_all_reachable arrivals) as [[Hwf Hlen] Htruthy].
  repeat split; auto. apply DictFacts.len_nonneg.
Qed.






(** ** The cache endpoints *)

Lemma in_keys_iff {V : Type} k (d : Dict.t V) :
  In k (Dict.keys d) <-> Dict.get k d <> None.
Proof.
  split.
  - intros Hin. apply DictFacts.in_get_some in Hin as [v ->]. discriminate.
  - destruct (Dict.get k d) eqn:E; [|congruence].
    intros _. eapply DictFacts.get_some_in; eauto.
Qed.

(** X4: the statistics of [cache_info] are consistent.  After any sequence
    of requests from the empty cache the reported size lies between 0 and
    the reported maximum; below 20 entries the keys are listed, as many as
    the size says, without repetition, and they are exactly the keys that
    hold an entry; from 20 entries on the listing is replaced by the count.
    The request itself leaves the cache as it is. *)
Theorem cache_info_consistent arrivals b now_get now_set :
  let c := serve_all arrivals [] in
  exists size listing,
    serve b now_get now_set CacheInfoReq c
      = (Ok200 (JDict [("cache_size", JInt size);
                       ("max_cache_size", JInt CACHE_MAX_SIZE);
                       ("cache_ttl_seconds", JInt CACHE_TTL);
                       ("cached_keys", listing)]), c) /\
    0 <= size <= CACHE_MAX_SIZE /\
    (size < 20 ->
     exists keys,
       listing = JList (map JStr keys) /\
       Z.of_nat (List.length keys) = size /\ NoDup keys /\
       forall k, In k keys <-> Dict.get k c <> None) /\
    (20 <= size ->
     listing = JStr (Py.str_of_int size ++ " keys (too many to list)")).
Proof.
  intros c. destruct (serve_all_reachable arrivals) as [[Hwf Hlen] _].
  fold c in Hwf, Hlen.
  assert (Hlen' : 0 <= Dict.len c <= CACHE_MAX_SIZE)
    by (split; [apply DictFacts.len_nonneg|exact Hlen]).
  exists (Dict.len c),
         (if Dict.len c <? 20 then JList (map JStr (Dict.keys c))
          else JStr (Py.str_of_int (Dict.len c)
                     ++ " keys (too many to list)")).
  split; [reflexivity|]. split; [exact Hlen'|]. split.
  - intros Hsmall. destruct (Z.ltb_spec (Dict.len c) 20); [|lia].
    exists (Dict.keys c). repeat split; auto.
    + unfold Dict.keys, Dict.len. now rewrite length_map.
    + apply in_keys_iff.
    + apply in_keys_iff.
  - intros Hbig. destruct (Z.ltb_spec (Dict.len c) 20); [lia|reflexivity].
Qed.



Lemma cache_info_consistent_witness :
  exists size listing,
    serve sample_backend 1 1 CacheInfoReq
          (serve_all [(sample_backend, 0, 0, MatchesReq "9" "3")] [])
      = (Ok200 (JDict [("cache_size", JInt size);
                       ("max_cache_size", JInt CACHE_MAX_SIZE);
                       ("cache_ttl_seconds", JInt CACHE_TTL);
                       ("cached_keys", listing)]),
         serve_all [(sample_backend, 0, 0, MatchesReq "9" "3")] []) /\
    0 <= size <= CACHE_MAX_SIZE /\
    (size < 20 ->
     exists keys,
       listing = JList (map JStr keys) /\
       Z.of_nat (List.length keys) = size /\ NoDup keys /\
       forall k,
         In k keys <->
         Dict.get k (serve_all [(sample_backend, 0, 0, MatchesReq "9" "3")] [])
           <> None) /\
    (20 <= size ->
     listing = JStr (Py.str_of_int size ++ " keys (too many to list)")).
Proof.
  exact (cache_info_consistent
           [(sample_backend, 0, 0, MatchesReq "9" "3")] sample_backend 1 1).
Defined.

(** ** More on the ranking history *)

Lemma strptime_Ymd_raise data e :
  Datetime.strptime_Ymd data = Raise e -> e = ValueError data.
Proof.
  unfold Datetime.strptime_Ymd, Datetime.finish.
  destruct (flat_map _ _) as [|[[[y m] d] [|? ?]] ?]; try congruence.
  destruct (Datetime.make y m d); simpl; congruence.
Qed.

(** X6: a ranking-history query succeeds exactly when both bounds parse
    and every date-group label of the dataset parses; the team names and
    the range play no part in that.  A malformed start date is reported
    first, then a malformed end date, and only then a malformed label. *)
Theorem history_rows_succeeds_iff groups team_names start_date end_date :
  ((exists rows,
      history_rows groups team_names start_date end_date = Ok rows) <->
   (exists start_dt, Datetime.strptime_Ymd start_date = Ok start_dt) /\
   (exists end_dt, Datetime.strptime_Ymd end_date = Ok end_dt) /\
   (forall label entries,
      In (label, entries) groups ->
      exists d, Datetime.strptime_mdY (label_date label) = Ok d)) /\
  ((forall start_dt, Datetime.strptime_Ymd start_date <> Ok start_dt) ->
   history_rows groups team_names start_date end_date
     = Raise (ValueError start_date)) /\
  (forall start_dt,
     Datetime.strptime_Ymd start_date = Ok start_dt ->
     (forall end_dt, Datetime.strptime_Ymd end_date <> Ok end_dt) ->
     history_rows groups team_names start_date end_date
       = Raise (ValueError end_date)).
Proof.
  repeat apply conj.
  - intros [rows Hrows].
    destruct (history_rows_inv _ _ _ _ _ Hrows)
      as (start_dt & end_dt & history & Hs & He & Hscan & _).
    repeat split; eauto. exact (scan_groups_parsed _ _ _ _ _ _ Hscan).
  - intros ([start_dt Hs] & [end_dt He] & Hwf).
    eexists. apply (history_rows_ok _ _ _ _ _ _ Hs He Hwf).
  - intros Hbad. unfold history_rows.
    destruct (Datetime.strptime_Ymd start_date) as [d|e] eqn:E.
    + now destruct (Hbad d).
    + apply strptime_Ymd_raise in E as ->. reflexivity.
  - intros start_dt Hs Hbad. unfold history_rows. rewrite Hs. cbn [bind].
    destruct (Datetime.strptime_Ymd end_date) as [d|e] eqn:E.
    + now destruct (Hbad d).
    + apply strptime_Ymd_raise in E as ->. reflexivity.
Qed.

Lemma history_rows_succeeds_iff_witness :
  history_rows bad_label_groups "A" "2023-02-30" "tomorrow"
    = Raise (ValueError "2023-02-30") /\
  history_rows bad_label_groups "A" "2023-02-03" "tomorrow"
    = Raise (ValueError "tomorrow").
Proof.
  destruct (history_rows_succeeds_iff
              bad_label_groups "A" "2023-02-30" "tomorrow")
    as (_ & Hstart & _).
  destruct (history_rows_succeeds_iff
              bad_label_groups "A" "2023-02-03" "tomorrow")
    as (_ & _ & Hend).
  split.
  - apply Hstart. intros start_dt. vm_compute. discriminate.
  - apply (Hend (Datetime.Dt 2023 2 3)); [reflexivity|].
    intros end_dt. vm_compute. discriminate.
Defined.

Lemma datetime_leb_trans a b c :
  Datetime.leb a b = true -> Datetime.leb b c = true ->
  Datetime.leb a c = true.
Proof.
  unfold Datetime.leb.
  destruct (Z.eqb_spec (Datetime.year a) (Datetime.year b)),
           (Z.eqb_spec (Datetime.year b) (Datetime.year c)),
           (Z.eqb_spec (Datetime.year a) (Datetime.year c)),
           (Z.eqb_spec (Datetime.month a) (Datetime.month b)),
           (Z.eqb_spec (Datetime.month b) (Datetime.month c)),
           (Z.eqb_spec (Datetime.month a) (Datetime.month c));
    rewrite ?Z.leb_le, ?Z.ltb_lt; lia.
Qed.

(** X7: a range whose end lies before its start is not an error: with
    every label of the dataset well formed the query has no rows, and on a
    cache miss the request answers 200 with an empty list and count 0. *)
Theorem inverted_range_no_rows
    namespace groups now_get now_set team_names start_date end_date c
    start_dt end_dt :
  Datetime.strptime_Ymd start_date = Ok start_dt ->
  Datetime.strptime_Ymd end_date = Ok end_dt ->
  Datetime.leb start_dt end_dt = false ->
  (forall label entries,
     In (label, entries) groups ->
     exists d, Datetime.strptime_mdY (label_date label) = Ok d) ->
  history_rows groups team_names start_date end_date = Ok [] /\
  (cache_miss now_get
     (cache_key_generator [namespace; team_names; start_date; end_date]) c ->
   fst (ranking_history_handler namespace groups now_get now_set
                                team_names start_date end_date c)
     = Ok200 (JDict [("data", JList []); ("count", JInt 0);
                     ("teams", JList (map JStr (parse_team_list team_names)));
                     ("date_range", JDict [("start", JStr start_date);
                                           ("end", JStr end_date)])])).
Proof.
  intros Hs He Hinv Hwf.
  assert (Hrows : history_rows groups team_names start_date end_date = Ok []).
  { rewrite (history_rows_ok _ _ _ _ _ _ Hs He Hwf).
    destruct (spec_rows start_dt end_dt (parse_team_list team_names) groups)
      as [|r rs] eqn:E; [reflexivity|].
    assert (Hr : In r (spec_rows start_dt end_dt (parse_team_list team_names)
                                 groups)) by (rewrite E; now left).
    apply in_spec_rows in Hr
      as (label & entries & d & e & _ & _ & _ & H1 & H2 & _).
    rewrite (datetime_leb_trans _ _ _ H1 H2) in Hinv. discriminate. }
  split; [exact Hrows|].
  intros Hmiss. rewrite ranking_history_handler_miss by assumption.
  now rewrite Hrows.
Qed.

Lemma inverted_range_no_rows_witness :
  history_rows two_groups "A,B" "2023-01-31" "2023-01-01" = Ok [].
Proof.
  refine (proj1 (inverted_range_no_rows
                   "rankings" two_groups 0 0 "A,B" "2023-01-31" "2023-01-01"
                   [] (Datetime.Dt 2023 1 31) (Datetime.Dt 2023 1 1) _ _ _ _)).
  - reflexivity.
  - reflexivity.
  - reflexivity.
  - intros label entries [[= <- <-]|[[= <- <-]|[]]]; eexists; reflexivity.
Defined.

Lemma str_in_iff x xs : str_in x xs = true <-> In x xs.
Proof.
  unfold str_in. rewrite existsb_exists. split.
  - intros (y & Hy & E). apply String.eqb_eq in E. now subst.
  - intros H. exists x. split; auto. apply String.eqb_refl.
Qed.

Lemma scan_groups_teams start_dt end_dt teams teams' groups history :
  (forall t, In t teams <-> In t teams') ->
  scan_groups start_dt end_dt teams groups history
    = scan_groups start_dt end_dt teams' groups history.
Proof.
  intros Hsame. revert history.
  induction groups as [|[label entries] groups IH]; intros history; auto.
  cbn [scan_groups].
  destruct (Datetime.strptime_mdY (label_date label)) as [d|]; auto.
  cbn [bind]. rewrite IH. f_equal.
  destruct (_ && _); auto. f_equal. unfold group_rows. f_equal.
  apply filter_ext. intros e.
  destruct (str_in (team_name e) teams) eqn:E1,
           (str_in (team_name e) teams') eqn:E2; auto.
  - apply str_in_iff, Hsame, str_in_iff in E1. congruence.
  - apply str_in_iff, Hsame, str_in_iff in E2. congruence.
Qed.

(** X8: the requested team names count as a set.  Two team-name parameters
    that name the same teams after splitting at commas and trimming,
    whatever the order, the repetitions and the spaces, give the same rows
    in the same order. *)
Theorem history_rows_team_set groups team_names team_names'
    start_date end_date :
  (forall t,
     In t (parse_team_list team_names) <->
     In t (parse_team_list team_names')) ->
  history_rows groups team_names start_date end_date
    = history_rows groups team_names' start_date end_date.
Proof.
  intros Hsame. unfold history_rows.
  destruct (Datetime.strptime_Ymd start_date); auto.
  destruct (Datetime.strptime_Ymd end_date); auto. cbn [bind].
  now rewrite (scan_groups_teams _ _ _ _ _ _ Hsame).
Qed.

Lemma history_rows_team_set_witness :
  history_rows two_groups "A,B" "2023-01-01" "2023-12-31"
    = history_rows two_groups " B , A,B" "2023-01-01" "2023-12-31".
Proof.
  apply history_rows_team_set. intros t. vm_compute. tauto.
Defined.

(** Trimming. *)

Lemma has_char_lstrip x s :
  has_char x s = false -> has_char x (Py.lstrip s) = false.
Proof.
  induction s as [|c s IH]; simpl; auto.
  intros H. apply orb_false_elim in H as [Hc Hs].
  destruct (Py.isspace c); auto. simpl. now rewrite Hc, Hs.
Qed.

Lemma has_char_rstrip x s :
  has_char x s = false -> has_char x (Py.rstrip s) = false.
Proof.
  induction s as [|c s IH]; simpl; auto.
  intros H. apply orb_false_elim in H as [Hc Hs]. specialize (IH Hs).
  destruct (Py.rstrip s).
  - destruct (Py.isspace c); simpl; auto. now rewrite Hc.
  - simpl in *. now rewrite Hc, IH.
Qed.

Lemma rstrip_idem s : Py.rstrip (Py.rstrip s) = Py.rstrip s.
Proof.
  induction s as [|c s IH]; simpl; auto.
  destruct (Py.rstrip s) as [|c' r] eqn:E.
  - destruct (Py.isspace c) eqn:Ec; simpl; auto. now rewrite Ec.
  - remember (String c' r) as t eqn:Et. cbn [Py.rstrip]. rewrite IH.
    subst t. reflexivity.
Qed.

Lemma lstrip_rstrip_lstrip s :
  Py.lstrip (Py.rstrip (Py.lstrip s)) = Py.rstrip (Py.lstrip s).
Proof.
  induction s as [|c s IH]; simpl; auto.
  destruct (Py.isspace c) eqn:Ec; auto.
  cbn [Py.rstrip].
  destruct (Py.rstrip s); [rewrite Ec|]; cbn [Py.lstrip]; now rewrite Ec.
Qed.

Lemma strip_idem s : Py.strip (Py.strip s) = Py.strip s.
Proof.
  unfold Py.strip. rewrite lstrip_rstrip_lstrip. apply rstrip_idem.
Qed.

Lemma split_no_sep x s : Forall (fun p => has_char x p = false) (Py.split x s).
Proof.
  induction s as [|c s IH]; simpl.
  - repeat constructor.
  - destruct (Ascii.eqb c x) eqn:Ec.
    + constructor; auto.
    + destruct (Py.split x s) as [|h t].
      * repeat constructor. simpl. now rewrite Ec.
      * inversion IH; subst. constructor; auto. simpl. now rewrite Ec.
Qed.

Lemma parse_team_list_trimmed team_names t :
  In t (parse_team_list team_names) ->
  has_char "," t = false /\ Py.strip t = t.
Proof.
  unfold parse_team_list. intros H.
  apply in_map_iff in H as (p & <- & Hp). split.
  - pose proof (split_no_sep "," team_names) as Hall.
    rewrite Forall_forall in Hall. unfold Py.strip.
    now apply has_char_rstrip, has_char_lstrip, Hall.
  - apply strip_idem.
Qed.

(** Where a row of an answer comes from. *)
Lemma history_rows_members
    groups team_names start_date end_date rows start_dt end_dt :
  history_rows groups team_names start_date end_date = Ok rows ->
  Datetime.strptime_Ymd start_date = Ok start_dt ->
  Datetime.strptime_Ymd end_date = Ok end_dt ->
  forall r, In r rows ->
    exists label entries d e,
      In (label, entries) groups /\ In e entries /\
      Datetime.strptime_mdY (label_date label) = Ok d /\
      Datetime.leb start_dt d = true /\ Datetime.leb d end_dt = true /\
      In (team_name e) (parse_team_list team_names) /\
      r = Row (team_name e) (Datetime.strftime_Ymd d) (ranking e).
Proof.
  intros Hrows Hs He r Hr.
  destruct (history_rows_inv _ _ _ _ _ Hrows)
    as (sd & ed & history & Hs' & He' & Hscan & ->).
  assert (sd = start_dt) as -> by congruence.
  assert (ed = end_dt) as -> by congruence.
  pose proof (scan_groups_parsed _ _ _ _ _ _ Hscan) as Hwf.
  rewrite scan_groups_ok in Hscan by exact Hwf.
  apply (Permutation_in _ (sort_perm pair_lt sort_key history)) in Hr.
  apply in_spec_rows. injection Hscan as Hhistory.
  rewrite <- Hhistory in Hr. exact Hr.
Qed.

(** X9: only trimmed, comma-free names can be asked for.  Every row of an
    answer has a team name without a comma and without white space at
    either end, so a dataset entry whose name contains a comma or starts or
    ends with white space appears in no answer. *)
Theorem history_rows_names_trimmed
    groups team_names start_date end_date rows :
  history_rows groups team_names start_date end_date = Ok rows ->
  (forall r, In r rows ->
     In (row_team r) (parse_team_list team_names) /\
     has_char "," (row_team r) = false /\
     Py.strip (row_team r) = row_team r) /\
  (forall name,
     has_char "," name = true \/ Py.strip name <> name ->
     forall r, In r rows -> row_team r <> name).
Proof.
  intros Hrows.
  assert (Hall : forall r, In r rows ->
            In (row_team r) (parse_team_list team_names)).
  { destruct (history_rows_inv _ _ _ _ _ Hrows)
      as (sd & ed & history & Hs & He & _).
    intros r Hr.
    destruct (history_rows_members _ _ _ _ _ _ _ Hrows Hs He r Hr)
      as (label & entries & d & e & _ & _ & _ & _ & _ & Ht & ->).
    exact Ht. }
  split.
  - intros r Hr. split; [now apply Hall|].
    now apply (parse_team_list_trimmed team_names), Hall.
  - intros name Hname r Hr E.
    destruct (parse_team_list_trimmed team_names _ (Hall r Hr)) as [H1 H2].
    rewrite E in *. destruct Hname; congruence.
Qed.

Lemma history_rows_names_trimmed_witness :
  row_team (Row "A" "2023-01-05" (JInt 2)) <> " A" /\
  row_team (Row "A" "2023-01-05" (JInt 2)) <> "A,B".
Proof.
  destruct (history_rows_names_trimmed
              odd_names_groups " A,B" "2023-01-01" "2023-01-31"
              [Row "A" "2023-01-05" (JInt 2)])
    as (_ & Hnever).
  - vm_compute. reflexivity.
  - split.
    + apply (Hnever " A"); [right; vm_compute; discriminate|now left].
    + apply (Hnever "A,B"); [left; reflexivity|now left].
Defined.

Lemma hd_split_cons x c s :
  Ascii.eqb c x = false ->
  hd EmptyString (Py.split x (String c s))
    = String c (hd EmptyString (Py.split x s)).
Proof.
  intros Hc. simpl. rewrite Hc. now destruct (Py.split x s).
Qed.

Lemma label_date_suffix label suffix :
  label_date (label ++ String "-" suffix) = label_date label.
Proof.
  unfold label_date. induction label as [|c label IH].
  - reflexivity.
  - cbn [String.append]. destruct (Ascii.eqb c "-") eqn:Ec.
    + simpl. now rewrite Ec.
    + rewrite !hd_split_cons by assumption. now rewrite IH.
Qed.

Lemma scan_groups_suffix start_dt end_dt teams suffix_of groups history :
  scan_groups start_dt end_dt teams
              (map (fun g => with_suffix (suffix_of g) g) groups) history
    = scan_groups start_dt end_dt teams groups history.
Proof.
  revert history.
  induction groups as [|[label entries] groups IH]; intros history; auto.
  cbn [map with_suffix fst snd scan_groups]. rewrite label_date_suffix.
  destruct (Datetime.strptime_mdY (label_date label)); auto.
  cbn [bind]. apply IH.
Qed.

(** X10: what follows the first hyphen of a date-group label plays no part.
    Appending a hyphen and any suffix to any of the labels of a dataset
    changes neither the rows of an answer nor whether the query fails. *)
Theorem history_rows_suffix_ignored
    suffix_of groups team_names start_date end_date :
  history_rows (map (fun g => with_suffix (suffix_of g) g) groups)
               team_names start_date end_date
    = history_rows groups team_names start_date end_date.
Proof.
  unfold history_rows.
  destruct (Datetime.strptime_Ymd start_date); auto.
  destruct (Datetime.strptime_Ymd end_date); auto. cbn [bind].
  now rewrite scan_groups_suffix.
Qed.

(** ** Dates read back *)

Lemma digit_char_digit n :
  Py.isdigit (Datetime.digit_char n) = true /\
  Datetime.numeral (Datetime.digit_char n) = n mod 10.
Proof.
  unfold Datetime.digit_char.
  pose proof (Z.mod_pos_bound n 10 eq_refl) as Hn.
  set (x := n mod 10) in *. clearbody x.
  assert (Hx : x = 0 \/ x = 1 \/ x = 2 \/ x = 3 \/ x = 4 \/ x = 5 \/ x = 6
               \/ x = 7 \/ x = 8 \/ x = 9) by lia.
  repeat (destruct Hx as [Hx|Hx]); subst x; split; reflexivity.
Qed.

Lemma two_digits_pad2 n r :
  0 <= n < 100 ->
  Datetime.two Py.isdigit Py.isdigit (Datetime.pad2 n ++ r)%string
    = [(n, r)].
Proof.
  intros Hn. unfold Datetime.pad2, Datetime.two. cbn [String.append].
  destruct (digit_char_digit (n / 10)) as [H1 H2].
  destruct (digit_char_digit n) as [H3 H4].
  rewrite H1, H2, H3, H4. cbn [andb]. do 2 f_equal.
  Z.div_mod_to_equations. lia.
Qed.

Lemma re_Y_pad4 y r :
  0 <= y <= 9999 ->
  Datetime.re_Y (Datetime.pad4 y ++ r)%string = [(y, r)].
Proof.
  intros Hy. unfold Datetime.re_Y. rewrite pad4_pad2.
  change ((Datetime.pad2 (y / 100) ++ Datetime.pad2 (y mod 100)) ++ r)%string
    with (Datetime.pad2 (y / 100) ++ (Datetime.pad2 (y mod 100) ++ r))%string.
  rewrite two_digits_pad2 by (Z.div_mod_to_equations; lia).
  cbn [flat_map]. rewrite two_digits_pad2 by (Z.div_mod_to_equations; lia).
  cbn [map app]. do 2 f_equal. Z.div_mod_to_equations. lia.
Qed.

(** The month, whatever comes after the hyphen that follows it. *)
Lemma re_m_pad2 {A : Type} m r (k : Z -> string -> list A) :
  1 <= m <= 12 ->
  flat_map (fun '(m', r1) => flat_map (k m') (Datetime.lit "-" r1))
           (Datetime.re_m (Datetime.pad2 m ++ String "-" r)%string)
    = k m r.
Proof.
  intros Hm.
  assert (H : m = 1 \/ m = 2 \/ m = 3 \/ m = 4 \/ m = 5 \/ m = 6 \/ m = 7
              \/ m = 8 \/ m = 9 \/ m = 10 \/ m = 11 \/ m = 12) by lia.
  repeat (destruct H as [H|H]); subst m; cbn; now rewrite ?app_nil_r.
Qed.

(** The day at the end of the data. *)
Lemma re_d_pad2 d :
  1 <= d <= 31 ->
  exists rest, Datetime.re_d (Datetime.pad2 d) = (d, EmptyString) :: rest.
Proof.
  intros Hd.
  assert (H : d = 1 \/ d = 2 \/ d = 3 \/ d = 4 \/ d = 5 \/ d = 6 \/ d = 7
              \/ d = 8 \/ d = 9 \/ d = 10 \/ d = 11 \/ d = 12 \/ d = 13
              \/ d = 14 \/ d = 15 \/ d = 16 \/ d = 17 \/ d = 18 \/ d = 19
              \/ d = 20 \/ d = 21 \/ d = 22 \/ d = 23 \/ d = 24 \/ d = 25
              \/ d = 26 \/ d = 27 \/ d = 28 \/ d = 29 \/ d = 30 \/ d = 31)
    by lia.
  repeat (destruct H as [H|H]); subst d; eexists; reflexivity.
Qed.

Lemma strptime_strftime d :
  valid_date d -> Datetime.strptime_Ymd (Datetime.strftime_Ymd d) = Ok d.
Proof.
  intros Hvalid.
  destruct (valid_date_bounds d Hvalid) as (Hy & Hm & Hd).
  destruct d as [y m dd].
  cbn [Datetime.year Datetime.month Datetime.day] in *.
  unfold Datetime.strptime_Ymd, Datetime.strftime_Ymd.
  cbn [Datetime.year Datetime.month Datetime.day].
  change ("-" ++ Datetime.pad2 m ++ "-" ++ Datetime.pad2 dd)%string
    with (String "-" (Datetime.pad2 m
                      ++ String "-" (Datetime.pad2 dd))%string).
  set (data := (Datetime.pad4 y ++ _)%string) at 1. clearbody data.
  rewrite re_Y_pad4 by lia. cbn [flat_map Datetime.lit].
  change (Ascii.eqb "-" "-") with true. cbv iota. cbn [flat_map].
  rewrite !app_nil_r. rewrite re_m_pad2 by lia.
  destruct (re_d_pad2 dd Hd) as [rest ->]. cbn [map Datetime.finish].
  unfold valid_date in Hvalid.
  cbn [Datetime.year Datetime.month Datetime.day] in Hvalid.
  now rewrite Hvalid.
Qed.

(** X11: the dates of an answer can be given back as bounds.  The date
    string of a valid date parses, under the format of the bounds, to that
    date; so every row date of an answer parses to a date between the two
    bounds of the request, both included. *)
Theorem row_dates_parse_within_bounds :
  (forall d,
     valid_date d ->
     Datetime.strptime_Ymd (Datetime.strftime_Ymd d) = Ok d) /\
  (forall groups team_names start_date end_date rows start_dt end_dt,
     history_rows groups team_names start_date end_date = Ok rows ->
     Datetime.strptime_Ymd start_date = Ok start_dt ->
     Datetime.strptime_Ymd end_date = Ok end_dt ->
     forall r, In r rows ->
       exists d,
         Datetime.strptime_Ymd (row_date r) = Ok d /\
         Datetime.leb start_dt d = true /\ Datetime.leb d end_dt = true).
Proof.
  split; [exact strptime_strftime|].
  intros groups team_names start_date end_date rows start_dt end_dt
         Hrows Hs He r Hr.
  destruct (history_rows_members _ _ _ _ _ _ _ Hrows Hs He r Hr)
    as (label & entries & d & e & _ & _ & Hd & H1 & H2 & _ & ->).
  exists d. cbn [row_date]. split; auto.
  apply strptime_strftime. now apply strptime_mdY_valid in Hd.
Qed.

Lemma row_dates_parse_within_bounds_witness :
  Datetime.strptime_Ymd (Datetime.strftime_Ymd (Datetime.Dt 2024 2 29))
    = Ok (Datetime.Dt 2024 2 29).
Proof.
  apply (proj1 row_dates_parse_within_bounds). reflexivity.
Defined.

(** ** Ranks as numbers *)

Lemma uint_string_digits d acc :
  Py.int_digits true acc (NilEmpty.string_of_uint d) = Some (uint_acc d acc).
Proof.
  revert acc. induction d; intros acc; simpl; try reflexivity; apply IHd.
Qed.

Lemma uint_string_digits_nonnil d acc :
  d <> Decimal.Nil ->
  Py.int_digits false acc (NilEmpty.string_of_uint d) = Some (uint_acc d acc).
Proof.
  destruct d; intros Hd; try congruence; simpl; apply uint_string_digits.
Qed.

Lemma of_uint_acc_value d acc :
  Z.pos (Pos.of_uint_acc d acc) = uint_acc d (Z.pos acc).
Proof.
  revert acc.
  induction d; intros acc; cbn [Pos.of_uint_acc uint_acc]; try reflexivity;
    rewrite IHd; f_equal; lia.
Qed.

Lemma of_uint_value d : Z.of_N (Pos.of_uint d) = uint_acc d 0.
Proof.
  induction d; cbn [Pos.of_uint uint_acc Z.of_N]; try reflexivity;
    try apply IHd; apply of_uint_acc_value.
Qed.

Lemma to_uint_value p : uint_acc (Pos.to_uint p) 0 = Z.pos p.
Proof.
  rewrite <- of_uint_value, DecimalPos.Unsigned.of_to. reflexivity.
Qed.

Lemma uint_string_lstrip d :
  Py.lstrip (NilEmpty.string_of_uint d) = NilEmpty.string_of_uint d.
Proof. destruct d; reflexivity. Qed.

Lemma uint_string_rstrip d :
  Py.rstrip (NilEmpty.string_of_uint d) = NilEmpty.string_of_uint d.
Proof.
  induction d; try reflexivity; cbn [NilEmpty.string_of_uint Py.rstrip];
    rewrite IHd; destruct (NilEmpty.string_of_uint d); reflexivity.
Qed.

Lemma uint_string_no_sep d : has_char "_" (NilEmpty.string_of_uint d) = false.
Proof. induction d; simpl; auto. Qed.

Lemma rstrip_cons_nonspace c s :
  Py.isspace c = false -> Py.rstrip (String c s) = String c (Py.rstrip s).
Proof.
  intros Hc. cbn [Py.rstrip]. destruct (Py.rstrip s); [now rewrite Hc|auto].
Qed.

Lemma uint_string_unsigned d :
  match NilEmpty.string_of_uint d with
  | String "-" t => option_map Z.opp (Py.int_digits false 0 t)
  | String "+" t => Py.int_digits false 0 t
  | t => Py.int_digits false 0 t
  end = Py.int_digits false 0 (NilEmpty.string_of_uint d).
Proof. destruct d; reflexivity. Qed.

Lemma nilzero_string d :
  d <> Decimal.Nil ->
  NilZero.string_of_uint d = NilEmpty.string_of_uint d.
Proof. destruct d; intros H; [congruence|reflexivity..]. Qed.

(** [int(str(n)) == n] *)
Lemma int_str n : Py.int (Py.str_of_int n) = Some n.
Proof.
  unfold Py.str_of_int, Py.int, Py.strip.
  destruct n as [|p|p]; [reflexivity| |];
    cbn [Z.to_int NilZero.string_of_int];
    pose proof (DecimalPos.Unsigned.to_uint_nonnil p) as Hnil;
    rewrite (nilzero_string _ Hnil).
  - rewrite uint_string_lstrip, uint_string_rstrip, uint_string_unsigned.
    rewrite (uint_string_digits_nonnil _ _ Hnil). now rewrite to_uint_value.
  - cbn [Py.lstrip]. change (Py.isspace "-") with false. cbv iota.
    rewrite rstrip_cons_nonspace by reflexivity.
    rewrite uint_string_rstrip.
    rewrite (uint_string_digits_nonnil _ _ Hnil). now rewrite to_uint_value.
Qed.

Lemma str_of_int_inj n m : Py.str_of_int n = Py.str_of_int m -> n = m.
Proof.
  intros E. apply (f_equal Py.int) in E. rewrite !int_str in E.
  now apply some_inj.
Qed.

Lemma str_of_int_no_sep n : no_sep (Py.str_of_int n).
Proof.
  unfold no_sep, Py.str_of_int.
  destruct n as [|p|p]; [reflexivity| |];
    cbn [Z.to_int NilZero.string_of_int];
    rewrite (nilzero_string _ (DecimalPos.Unsigned.to_uint_nonnil p));
    [|cbn [has_char]; change (Ascii.eqb "-" "_") with false; cbn [orb]];
    apply uint_string_no_sep.
Qed.

(** X12: the composite key of the matches document is faithful to the
    ranks.  [int(str(n))] is [n] for every integer; two requests look up
    the same composite key only if their ranks are the same numbers; and
    every key of the form ["i_j"] is the one looked up for the ranks
    [str(i + 1)] and [str(j + 1)], whose answer carries the list stored
    under it and its length. *)
Theorem matches_key_faithful :
  (forall n, Py.int (Py.str_of_int n) = Some n) /\
  (forall row col row' col',
     matches_key row col = matches_key row' col' ->
     row = row' /\ col = col') /\
  (forall i j doc rest games count,
     Dict.get (Py.str_of_int i ++ "_" ++ Py.str_of_int j)%string doc
       = Some games ->
     py_len games = Ok count ->
     matches_lookup (doc :: rest)
                    (Py.str_of_int (i + 1)) (Py.str_of_int (j + 1))
       = Ok (JDict [("matches", games); ("count", JInt count);
                    ("row_rank", JStr (Py.str_of_int (i + 1)));
                    ("col_rank", JStr (Py.str_of_int (j + 1)))])).
Proof.
  split; [exact int_str|]. split.
  - intros row col row' col' E.
    change (key_string [Py.str_of_int (row - 1); Py.str_of_int (col - 1)]
            = key_string [Py.str_of_int (row' - 1); Py.str_of_int (col' - 1)])
      in E.
    apply key_string_inj_no_sep in E;
      [|repeat constructor; apply str_of_int_no_sep..].
    injection E as E1 E2.
    apply str_of_int_inj in E1, E2. lia.
  - intros i j doc rest games count Hget Hlen. unfold matches_lookup.
    rewrite !int_str. cbn [or_raise bind nth_error].
    unfold matches_key. replace (i + 1 - 1) with i by lia.
    replace (j + 1 - 1) with j by lia.
    rewrite Hget. cbn [or_raise bind]. rewrite Hlen. reflexivity.
Qed.

Lemma matches_key_faithful_witness :
  matches_lookup [[("8_2", JList [JStr "a game"])]]
                 (Py.str_of_int (8 + 1)) (Py.str_of_int (2 + 1))
    = Ok (JDict [("matches", JList [JStr "a game"]); ("count", JInt 1);
                 ("row_rank", JStr (Py.str_of_int (8 + 1)));
                 ("col_rank", JStr (Py.str_of_int (2 + 1)))]).
Proof.
  apply (proj2 (proj2 matches_key_faithful) 8 2); reflexivity.
Defined.

Lemma rank_order_length n : List.length (rank_order n) = S n.
Proof.
  unfold rank_order. rewrite length_app, length_map, length_seq. simpl. lia.
Qed.

Lemma rank_order_nth n i :
  (i < n)%nat ->
  nth i (rank_order n) EmptyString = Py.str_of_int (Z.of_nat i + 1).
Proof.
  intros Hi. unfold rank_order.
  rewrite app_nth1 by (rewrite length_map, length_seq; lia).
  rewrite (nth_indep _ EmptyString (Py.str_of_int (Z.of_nat 0)))
    by (rewrite length_map, length_seq; lia).
  rewrite (map_nth (fun i => Py.str_of_int (Z.of_nat i))).
  rewrite seq_nth by lia. f_equal. lia.
Qed.

Lemma rank_order_last n : nth n (rank_order n) EmptyString = "unranked".
Proof.
  unfold rank_order.
  rewrite app_nth2 by (rewrite length_map, length_seq; lia).
  rewrite length_map, length_seq, Nat.sub_diag. reflexivity.
Qed.

(** X13: the headers of a matrix against the ranks of a matches request.
    A rank order for [n] ranks has [n + 1] labels; the label at position
    [i < n] is the decimal of [i + 1] and [int] reads it back, so that the
    request with the labels at positions [i] and [j] looks up the key
    ["i_j"] of the first document.  The last label is ["unranked"], which
    [int] rejects: a matches request with that label as either rank raises
    [ValueError] whatever the collection holds. *)
Theorem rank_order_against_matches n :
  List.length (rank_order n) = S n /\
  nth n (rank_order n) EmptyString = "unranked" /\
  (forall i,
     (i < n)%nat ->
     nth i (rank_order n) EmptyString = Py.str_of_int (Z.of_nat i + 1) /\
     Py.int (nth i (rank_order n) EmptyString) = Some (Z.of_nat i + 1)) /\
  (forall i j doc rest,
     (i < n)%nat -> (j < n)%nat ->
     let key := (Py.str_of_int (Z.of_nat i) ++ "_"
                 ++ Py.str_of_int (Z.of_nat j))%string in
     matches_lookup (doc :: rest) (nth i (rank_order n) EmptyString)
                    (nth j (rank_order n) EmptyString)
       = (games <- or_raise (Dict.get key doc) (KeyError key) ;;
          count <- py_len games ;;
          Ok (JDict [("matches", games); ("count", JInt count);
                     ("row_rank", JStr (nth i (rank_order n) EmptyString));
                     ("col_rank", JStr (nth j (rank_order n) EmptyString))])))
  /\
  (forall docs col_rank,
     matches_lookup docs (nth n (rank_order n) EmptyString) col_rank
       = Raise (ValueError "unranked")) /\
  (forall docs i,
     (i < n)%nat ->
     matches_lookup docs (nth i (rank_order n) EmptyString)
                    (nth n (rank_order n) EmptyString)
       = Raise (ValueError "unranked")).
Proof.
  split; [apply rank_order_length|]. split; [apply rank_order_last|].
  repeat apply conj.
  - intros i Hi. rewrite rank_order_nth by assumption.
    split; [reflexivity|apply int_str].
  - intros i j doc rest Hi Hj key. unfold matches_lookup.
    rewrite !rank_order_nth by assumption. rewrite !int_str.
    cbn [or_raise bind nth_error]. unfold matches_key.
    replace (Z.of_nat i + 1 - 1) with (Z.of_nat i) by lia.
    replace (Z.of_nat j + 1 - 1) with (Z.of_nat j) by lia.
    reflexivity.
  - intros docs col_rank. rewrite rank_order_last. reflexivity.
  - intros docs i Hi. rewrite rank_order_last, rank_order_nth by assumption.
    unfold matches_lookup. rewrite int_str. reflexivity.
Qed.

(** The headers "4" and "10" of the men's matrix ask for the key "3_9". *)
Lemma rank_order_against_matches_witness :
  nth 3 RANK_ORDER EmptyString = "4" /\
  nth 9 RANK_ORDER EmptyString = "10" /\
  matches_lookup [[("3_9", JList [])]]
                 (nth 3 RANK_ORDER EmptyString) (nth 9 RANK_ORDER EmptyString)
    = Ok (JDict [("matches", JList []); ("count", JInt 0);
                 ("row_rank", JStr "4"); ("col_rank", JStr "10")]).
Proof.
  destruct (rank_order_against_matches 20) as (_ & _ & Hnth & Hcell & _).
  destruct (Hnth 3%nat) as [H3 _]; [lia|].
  destruct (Hnth 9%nat) as [H9 _]; [lia|].
  split; [exact H3|]. split; [exact H9|].
  etransitivity;
    [exact (Hcell 3%nat 9%nat [("3_9", JList [])] []
                  ltac:(lia) ltac:(lia))|].
  reflexivity.
Defined.

(** ** The shape of a key *)

Lemma le_bytes_length width x : List.length (MD5.le_bytes width x) = width.
Proof. unfold MD5.le_bytes. now rewrite length_map, length_seq. Qed.

Lemma le_bytes_range width x :
  Forall (fun b => 0 <= b <= 255) (MD5.le_bytes width x).
Proof.
  unfold MD5.le_bytes. apply Forall_forall. intros b Hb.
  apply in_map_iff in Hb as (i & <- & _).
  change (Z.land (Z.shiftr x (8 * Z.of_nat i)) 255)
    with (Z.land (Z.shiftr x (8 * Z.of_nat i)) (Z.ones 8)).
  rewrite Z.land_ones by lia.
  pose proof (Z.mod_pos_bound (Z.shiftr x (8 * Z.of_nat i)) (2 ^ 8) eq_refl).
  change (2 ^ 8) with 256 in *. lia.
Qed.

(** A property checked on every number below a bound holds below it. *)
Lemma checked_below (p : Z -> bool) (bound : nat) :
  forallb (fun i => p (Z.of_nat i)) (seq 0 bound) = true ->
  forall n, 0 <= n < Z.of_nat bound -> p n = true.
Proof.
  intros Hall n Hn. rewrite forallb_forall in Hall.
  rewrite <- (Z2Nat.id n) by lia. apply Hall, in_seq. lia.
Qed.

Lemma hex_digit_is_hex n : 0 <= n <= 15 -> is_hex (MD5.hex_digit n) = true.
Proof.
  intros Hn. apply (checked_below (fun n => is_hex (MD5.hex_digit n)) 16).
  - reflexivity.
  - lia.
Qed.

Lemma hex_shape bs :
  Forall (fun b => 0 <= b <= 255) bs ->
  String.length (MD5.hex bs) = (2 * List.length bs)%nat /\
  all_chars is_hex (MD5.hex bs) = true.
Proof.
  induction 1 as [|b bs Hb Hall [IHlen IHhex]]; [split; reflexivity|].
  cbn [MD5.hex fold_right String.length List.length all_chars].
  fold (MD5.hex bs). rewrite IHlen, IHhex. split; [lia|].
  rewrite !hex_digit_is_hex; auto.
  - change (Z.land b 15) with (Z.land b (Z.ones 4)).
    rewrite Z.land_ones by lia.
    pose proof (Z.mod_pos_bound b (2 ^ 4) eq_refl).
    change (2 ^ 4) with 16 in *. lia.
  - rewrite Z.shiftr_div_pow2 by lia. change (2 ^ 4) with 16.
    Z.div_mod_to_equations. lia.
Qed.

(** X14: a digest is 32 lower-case hexadecimal digits whatever is hashed:
    every cache key has that shape, for any namespace and any parts. *)
Theorem cache_key_shape :
  (forall data,
     String.length (MD5.hexdigest data) = 32%nat /\
     all_chars is_hex (MD5.hexdigest data) = true) /\
  (forall args,
     String.length (cache_key_generator args) = 32%nat /\
     all_chars is_hex (cache_key_generator args) = true).
Proof.
  assert (H : forall data,
             String.length (MD5.hexdigest data) = 32%nat /\
             all_chars is_hex (MD5.hexdigest data) = true).
  { intros data. unfold MD5.hexdigest, MD5.digest.
    destruct (MD5.blocks _ _ _) as [a b c d].
    destruct (hex_shape (MD5.le_bytes 4 a ++ MD5.le_bytes 4 b
                         ++ MD5.le_bytes 4 c ++ MD5.le_bytes 4 d))
      as [Hlen Hhex].
    - repeat (apply Forall_app; split); apply le_bytes_range.
    - split; [|exact Hhex]. rewrite Hlen, !length_app, !le_bytes_length.
      reflexivity. }
  split; [exact H|]. intros args. apply H.
Qed.

(** ** More on the cache *)

(** X15: eviction takes expired entries first.  If the cache is full when
    [set_cache] runs and some entry has expired by then, the evicted entry
    has expired too; put the other way, an entry that is still fresh is
    evicted only when every entry is fresh. *)
Theorem eviction_takes_expired_first
    {Data : Type} now key (data : Data) (c : cache Data) :
  CACHE_MAX_SIZE <= Dict.len c ->
  exists victim victim_data victim_time,
    py_min (stored_at c) (Dict.keys c) = Some victim /\
    Dict.get victim c = Some (victim_data, victim_time) /\
    set_cache now key data c
      = Dict.set key (data, now) (Dict.del victim c) /\
    (forall k entry timestamp,
       Dict.get k c = Some (entry, timestamp) ->
       CACHE_TTL <= now - timestamp ->
       CACHE_TTL <= now - victim_time) /\
    (now - victim_time < CACHE_TTL ->
     forall k entry timestamp,
       Dict.get k c = Some (entry, timestamp) ->
       now - timestamp < CACHE_TTL).
Proof.
  intros Hfull.
  destruct (set_cache_full now key data c Hfull)
    as (victim & Hmin & (d & tv & Hget & Hle) & Heq).
  exists victim, d, tv. repeat split; auto.
  - intros k entry ts Hk Hexp. specialize (Hle k entry ts Hk). lia.
  - intros Hfresh k entry ts Hk. specialize (Hle k entry ts Hk). lia.
Qed.

Lemma eviction_takes_expired_first_witness :
  exists victim victim_data victim_time,
    py_min (stored_at full_cache) (Dict.keys full_cache) = Some victim /\
    Dict.get victim full_cache = Some (victim_data, victim_time) /\
    set_cache 3650 "new" (JInt 0) full_cache
      = Dict.set "new" (JInt 0, 3650) (Dict.del victim full_cache) /\
    (forall k entry timestamp,
       Dict.get k full_cache = Some (entry, timestamp) ->
       CACHE_TTL <= 3650 - timestamp ->
       CACHE_TTL <= 3650 - victim_time) /\
    (3650 - victim_time < CACHE_TTL ->
     forall k entry timestamp,
       Dict.get k full_cache = Some (entry, timestamp) ->
       3650 - timestamp < CACHE_TTL).
Proof.
  apply (eviction_takes_expired_first 3650 "new" (JInt 0) full_cache).
  vm_compute. discriminate.
Defined.

(** X16: the size after [set_cache].  Below the capacity the cache grows
    by one exactly when the key is new.  At the capacity it keeps its size
    when the key is new or is the evicted one, and shrinks by one when the
    key is present under another entry than the evicted one. *)
Theorem set_cache_size {Data : Type} now key (data : Data) (c : cache Data) :
  Dict.wf c ->
  (Dict.len c < CACHE_MAX_SIZE ->
   Dict.len (set_cache now key data c)
     = Dict.len c + (if Dict.mem key c then 0 else 1)) /\
  (CACHE_MAX_SIZE <= Dict.len c ->
   exists victim,
     py_min (stored_at c) (Dict.keys c) = Some victim /\
     Dict.len (set_cache now key data c)
       = Dict.len c
         - (if Dict.mem key c && negb (String.eqb key victim)
            then 1 else 0)).
Proof.
  intros Hwf. split.
  - intros Hlt. rewrite set_cache_below by assumption. unfold Dict.mem.
    destruct (Dict.get key c) eqn:E.
    + rewrite (DictFacts.len_set_present _ _ _ _ E). lia.
    + rewrite (DictFacts.len_set_absent _ _ _ E). lia.
  - intros Hfull.
    destruct (set_cache_full now key data c Hfull)
      as (victim & Hmin & (d & tv & Hget & _) & ->).
    exists victim. split; [exact Hmin|].
    pose proof (DictFacts.len_del _ _ _ Hget) as Hdel. unfold Dict.mem.
    destruct (String.eqb_spec key victim) as [->|Hne].
    + rewrite DictFacts.len_set_absent
        by (now apply DictFacts.get_del_same).
      rewrite andb_false_r. lia.
    + destruct (Dict.get key c) eqn:E.
      * assert (E' : Dict.get key (Dict.del victim c) = Some p)
          by (rewrite DictFacts.get_del_other; congruence).
        rewrite (DictFacts.len_set_present _ _ _ _ E'). simpl. lia.
      * assert (E' : Dict.get key (Dict.del victim c) = None)
          by (rewrite DictFacts.get_del_other; congruence).
        rewrite (DictFacts.len_set_absent _ _ _ E'). simpl. lia.
Qed.

Lemma set_cache_size_witness :
  exists victim,
    py_min (stored_at full_cache) (Dict.keys full_cache) = Some victim /\
    Dict.len (set_cache 200 "50" (JInt 7) full_cache)
      = Dict.len full_cache
        - (if Dict.mem "50" full_cache && negb (String.eqb "50" victim)
           then 1 else 0).
Proof.
  refine (proj2 (set_cache_size 200 "50" (JInt 7) full_cache _) _).
  - apply distinct_NoDup. vm_compute. reflexivity.
  - vm_compute. discriminate.
Defined.

(** ** Checks on concrete inputs *)

Example md5_empty :
  MD5.hexdigest (Py.encode "") = "d41d8cd98f00b204e9800998ecf8427e".
Proof. vm_compute. reflexivity. Qed.

Example md5_abc :
  MD5.hexdigest (Py.encode "abc") = "900150983cd24fb0d6963f7d28e17f72".
Proof. vm_compute. reflexivity. Qed.

Example md5_two_bytes :
  MD5.hexdigest (Py.encode (String (chr 233) EmptyString))
    = "66ddcd97cfdeabb2f6fb8a999b4bc76f".
Proof. vm_compute. reflexivity. Qed.

Example key_matches_3_9 :
  cache_key_generator ["matches"; "3"; "9"]
    = "d6cf15cf42b8ad3cb1129bf9e4d8a660".
Proof. vm_compute. reflexivity. Qed.

Example int_accepts :
  (Py.int "1_0", Py.int " -0_5 ", Py.int "+7")
    = (Some 10, Some (-5), Some 7).
Proof. reflexivity. Qed.

Example int_rejects :
  (Py.int "1__0", Py.int "_1", Py.int "1_", Py.int "", Py.int "3.5")
    = (None, None, None, None, None).
Proof. reflexivity. Qed.

Example strptime_accepts :
  (Datetime.strptime_mdY "1/5/2023", Datetime.strptime_mdY "02/29/2024",
   Datetime.strptime_Ymd "2023-1-5")
    = (Ok (Datetime.Dt 2023 1 5), Ok (Datetime.Dt 2024 2 29),
       Ok (Datetime.Dt 2023 1 5)).
Proof. reflexivity. Qed.

Example strptime_rejects :
  (Datetime.strptime_mdY "13/5/2023", Datetime.strptime_mdY "12/31/20233",
   Datetime.strptime_mdY "2/29/2023", Datetime.strptime_Ymd "0000-01-01")
    = (Raise (ValueError "13/5/2023"), Raise (ValueError "12/31/20233"),
       Raise (ValueError "2/29/2023"), Raise (ValueError "0000-01-01")).
Proof. reflexivity. Qed.

Example label_with_suffix :
  Datetime.strptime_mdY (label_date "09/13/2023-1")
    = Ok (Datetime.Dt 2023 9 13).
Proof. reflexivity. Qed.

Example team_list_of_empty : parse_team_list "" = [""].
Proof. reflexivity. Qed.

Example team_list_trimmed :
  parse_team_list " UCLA , Stanford" = ["UCLA"; "Stanford"].
Proof. reflexivity. Qed.

(** Two requests whose keys coincide: the second is served the answer of
    the first, although its own lookup key is ["0_4"]. *)
Example colliding_requests_share_answer :
  let matches_col :=
    [[("9_4", JList [JStr "ten against five"]);
      ("0_4", JList [JStr "one against five"])]] in
  let '(first, c1) := get_matches matches_col 0 0 "1_0" "5" [] in
  let '(second, _) := get_matches matches_col 1 1 "1" "0_5" c1 in
  matches_lookup matches_col "1" "0_5"
    = Ok (JDict [("matches", JList [JStr "one against five"]);
                 ("count", JInt 1);
                 ("row_rank", JStr "1"); ("col_rank", JStr "0_5")]) /\
  second = first /\
  first = Ok200 (JDict [("matches", JList [JStr "ten against five"]);
                        ("count", JInt 1);
                        ("row_rank", JStr "1_0"); ("col_rank", JStr "5")]).
Proof. vm_compute. auto. Qed.
